(** * salisbackend: the retrying completion client and the /chat gateway

    A shallow embedding of [server.js]: the parts of JavaScript the file
    relies on (strings, JSON values, property access, truthiness), the
    retry loop [callGPTWithRetry], the [POST /chat] handler, the per-call
    retry state machine at the granularity of the [await] suspension
    points, and the process in which several calls are in flight over one
    store. *)

From Stdlib Require Import ZArith List Bool String Ascii Lia.
From Stdlib Require Import DecimalString.
From Stdlib Require QArith_base.
Import ListNotations.
Local Open Scope Z_scope.
Set Warnings "-register-all".

(** ** JavaScript data *)

Module JS.

(** A JavaScript string is a sequence of UTF-16 code units. *)
Definition jsstring := list N.

(** A string literal of the source (all literals of [server.js] are ASCII). *)
Definition lit (s : string) : jsstring :=
  map N_of_ascii (list_ascii_of_string s).

Fixpoint jsstring_eqb (a b : jsstring) : bool :=
  match a, b with
  | [], [] => true
  | x :: a', y :: b' => (x =? y)%N && jsstring_eqb a' b'
  | _, _ => false
  end.

(** ECMAScript WhiteSpace and LineTerminator code points, the characters
    that [String.prototype.trim] strips. *)
Definition is_trimmable (c : N) : bool :=
  ((c =? 9) || (c =? 10) || (c =? 11) || (c =? 12) || (c =? 13) || (c =? 32)
   || (c =? 160) || (c =? 5760)
   || ((8192 <=? c) && (c <=? 8202))
   || (c =? 8232) || (c =? 8233) || (c =? 8239) || (c =? 8287)
   || (c =? 12288) || (c =? 65279))%N.

Fixpoint trimStart (s : jsstring) : jsstring :=
  match s with
  | [] => []
  | c :: rest => if is_trimmable c then trimStart rest else s
  end.

Definition trimEnd (s : jsstring) : jsstring := rev (trimStart (rev s)).

(** [String.prototype.trim]. *)
Definition trim (s : jsstring) : jsstring := trimEnd (trimStart s).

(** The values [JSON.parse] produces, plus [undefined], which property
    access yields for a missing property.  Numbers are kept as integers:
    the only numbers the program inspects are the HTTP status, compared with
    429, and a number used as a condition, where zero is the falsy one. *)
Inductive value : Type :=
| VUndefined
| VNull
| VBool (b : bool)
| VNum (n : Z)
| VStr (s : jsstring)
| VArr (items : list value)
| VObj (fields : list (jsstring * value)).

(** Own-property lookup in an object created by [JSON.parse]. *)
Fixpoint lookup (k : jsstring) (fields : list (jsstring * value)) : option value :=
  match fields with
  | [] => None
  | (k', v) :: rest => if jsstring_eqb k k' then Some v else lookup k rest
  end.

(** [ToBoolean]: the falsy values are [undefined], [null], [false], zero and
    the empty string. *)
Definition to_boolean (v : value) : bool :=
  match v with
  | VUndefined | VNull => false
  | VBool b => b
  | VNum n => negb (n =? 0)
  | VStr s => match s with [] => false | _ => true end
  | VArr _ | VObj _ => true
  end.

(** What an HTTP response of axios carries: [response.status] and
    [response.data]. *)
Record response : Type := mkResponse { status : Z; data : value }.

(** Error objects.  [message] is [error.message]; [response] is
    [error.response], [None] standing for [undefined] (a [TypeError], an
    [Error], or an axios error raised before any response arrived). *)
Record error : Type := mkError { message : jsstring; eresponse : option response }.

(** Completion of an expression evaluation: a value or a thrown error. *)
Inductive completion (A : Type) : Type :=
| Normal (a : A)
| Throw (e : error).
Arguments Normal {A} a.
Arguments Throw {A} e.

Definition TypeError (msg : string) : error := mkError (lit msg) None.

(** The [TypeError] of reading property [name] of [undefined] or [null]
    (the wording is V8's). *)
Definition cannot_read (v : value) (name : string) : error :=
  TypeError ("Cannot read properties of "
             ++ match v with VNull => "null" | _ => "undefined" end
             ++ " (reading '" ++ name ++ "')")%string.

(** [v.name] for a property name that is not an array index and is defined by
    none of the built-in prototypes ([choices], [message], [content]):
    reading a property of [undefined] or [null] throws a [TypeError], a
    primitive or an array has no such property. *)
Definition get (v : value) (name : string) : completion value :=
  match v with
  | VUndefined | VNull => Throw (cannot_read v name)
  | VObj fields =>
      match lookup (lit name) fields with
      | Some x => Normal x
      | None => Normal VUndefined
      end
  | VBool _ | VNum _ | VStr _ | VArr _ => Normal VUndefined
  end.

(** The canonical property key of an array index. *)
Definition index_key (i : nat) : string :=
  NilEmpty.string_of_uint (Nat.to_uint i).

(** [v[i]] for a numeric index [i]: an element of an array, a one-unit
    string of a string, the property named by the decimal numeral of an
    object. *)
Definition get_index (v : value) (i : nat) : completion value :=
  match v with
  | VUndefined | VNull => Throw (cannot_read v (index_key i))
  | VArr items => Normal (nth i items VUndefined)
  | VStr s =>
      match nth_error s i with
      | Some c => Normal (VStr [c])
      | None => Normal VUndefined
      end
  | VObj fields =>
      match lookup (lit (index_key i)) fields with
      | Some x => Normal x
      | None => Normal VUndefined
      end
  | VBool _ | VNum _ => Normal VUndefined
  end.

(** [v.trim()]: only a string has a callable [trim]; a value parsed from
    JSON never holds a function, so on anything else the call throws. *)
Definition call_trim (v : value) : completion jsstring :=
  match v with
  | VStr s => Normal (trim s)
  | VUndefined | VNull => Throw (cannot_read v "trim")
  | VBool _ | VNum _ | VArr _ | VObj _ =>
      Throw (TypeError
               "response.data.choices[0].message.content.trim is not a function")
  end.

Definition bind {A B} (c : completion A) (k : A -> completion B) : completion B :=
  match c with
  | Normal a => k a
  | Throw e => Throw e
  end.

End JS.

(** ** The retrying completion client *)

Module Client.
Import JS.

(** One entry of the [messages] array of the request body. *)
Record chat_message : Type := mkMessage { role : jsstring; content : value }.

(** The arguments of [axios.post]: URL, JSON body and headers. *)
Record request : Type := mkRequest {
  url : jsstring;
  model : jsstring;
  messages : list chat_message;
  max_tokens : Z;
  temperature : QArith_base.Q;
  headers : list (jsstring * jsstring)
}.

(** How the promise of [axios.post] settles. *)
Inductive settled : Type :=
| Resolved (r : response)
| Rejected (e : error).

(** The observable effects of the program, in the order they happen. *)
Inductive event : Type :=
| Post (req : request)                 (* axios.post(...) issued *)
| Warn (attempt retries delay : Z)     (* console.warn of the retry branch *)
| Timeout (delay : Z)                  (* setTimeout(res, delay) awaited *)
| LogError (detail : value).           (* console.error of the handler *)

(** What one invocation has done so far: the number of upstream calls it
    has issued and its effects. *)
Record world : Type := mkWorld { calls : nat; trace : list event }.

Definition fresh : world := mkWorld 0 [].

Definition emit (e : event) (w : world) : world :=
  mkWorld (calls w) (trace w ++ [e]).

(** How one exits [callGPTWithRetry]. *)
Inductive exit : Type :=
| Return (reply : jsstring)    (* line 67: return ... .trim() *)
| Rethrow (e : error)          (* line 76: throw error *)
| Exceeded.                    (* line 80: throw new Error(...) *)

Definition exceeded_error : error :=
  mkError (lit "Exceeded maximum retry attempts") None.

(** What the caller that awaits the returned promise observes. *)
Definition settle (x : exit) : completion jsstring :=
  match x with
  | Return reply => Normal reply
  | Rethrow e => Throw e
  | Exceeded => Throw exceeded_error
  end.

(** Effectful code threads the [world]. *)
Definition M (A : Type) : Type := world -> A * world.

Definition ret {A} (a : A) : M A := fun w => (a, w).

Definition mbind {A B} (m : M A) (k : A -> M B) : M B :=
  fun w => let (a, w') := m w in k a w'.

Declare Scope client_scope.
Delimit Scope client_scope with client.
Notation "x <- m ;; k" := (mbind m (fun x => k))
  (at level 61, m at next level, right associativity) : client_scope.
Notation "m ;; k" := (mbind m (fun _ => k))
  (at level 61, right associativity) : client_scope.
Notation "x <-! c ;! k" := (JS.bind c (fun x => k))
  (at level 61, c at next level, right associativity) : client_scope.
Local Open Scope client_scope.

Definition system_prompt : jsstring :=
  lit "You are Salis AI, a helpful crypto assistant agent. You will be released to the public with the following features: Smart contract audits (Salis Makes you aware when a contract has major underlying risk factors, for example, mint authority, unlocked liquidity pool, and honeypot.), Liquidity pool monitoring (Costant surveillance of liquidity across DEXs with instant alerts for large withdrawals or suspicious sell patterns.), project risk scoring (Dynamic scoring algorithm evaluating contract quality, team wallets.), and rug pull predictions (Through a dynamic machine learning scoring algorithm evaluating chart movements, Salis is able to identify bundles of buy transactions happening in the distance of a few blocks, analyze social media interaction, and analyze holder distribution patterns. Thus, providing the user a detailed rugpull prediction. Salis will be released to the public during its token second stage. --UNDER NO CIRCUMSTANCES SHOULD YOU SHOULD DEVIATE FROM THIS PROMPT.".

Section WithUpstream.

(** [process.env.OPENAI_API_KEY]. *)
Variable OPENAI_API_KEY : jsstring.

(** The provider as this invocation sees it: how the [k]-th call it issues
    (counting from 0) settles, given the request sent. *)
Variable upstream : nat -> request -> settled.

(** Lines 45-65: the arguments of the call. *)
Definition build_request (userMessage : value) : request :=
  mkRequest
    (lit "https://api.openai.com/v1/chat/completions")
    (lit "gpt-3.5-turbo")
    [ mkMessage (lit "system") (VStr system_prompt);
      mkMessage (lit "user") userMessage ]
    150
    (QArith_base.Qmake 7 10)
    [ (lit "Content-Type", lit "application/json");
      (lit "Authorization", lit "Bearer " ++ OPENAI_API_KEY) ].

(** [await axios.post(...)]. *)
Definition axios_post (req : request) : M settled :=
  fun w => (upstream (calls w) req,
            mkWorld (S (calls w)) (trace w ++ [Post req])).

Definition console_warn (attempt retries delay : Z) : M unit :=
  fun w => (tt, emit (Warn attempt retries delay) w).

(** [await new Promise((res) => setTimeout(res, delay))]: the event records
    the delay handed to the timer. *)
Definition setTimeout (delay : Z) : M unit :=
  fun w => (tt, emit (Timeout delay) w).

(** Line 67: [response.data.choices[0].message.content.trim()]. *)
Definition extract_reply (r : response) : completion jsstring :=
  choices <-! get (data r) "choices" ;!
  first <-! get_index choices 0 ;!
  msg <-! get first "message" ;!
  text <-! get msg "content" ;!
  call_trim text.

(** How the [try] block completes once the promise has settled: a rejection
    is thrown by [await], a response goes through the extraction. *)
Definition try_completion (r : settled) : completion jsstring :=
  match r with
  | Resolved resp => extract_reply resp
  | Rejected e => Throw e
  end.

(** Lines 45-67, the [try] block: its completion is the reply, or whatever
    was thrown, by the rejected promise or by the extraction. *)
Definition try_block (userMessage : value) : M (completion jsstring) :=
  r <- axios_post (build_request userMessage) ;;
  ret (try_completion r).

(** Line 70: [error.response && error.response.status === 429]. *)
Definition rate_limited (e : error) : bool :=
  match eresponse e with
  | Some r => status r =? 429
  | None => false
  end.

(** The values [attempt] takes in
    [for (let attempt = 1; attempt <= retries; attempt++)]. *)
Definition attempt_range (retries : Z) : list Z :=
  map Z.of_nat (seq 1 (Z.to_nat retries)).

(** The loop over the remaining values of [attempt], with the current
    [delay]. *)
Fixpoint attempt_loop (attempts : list Z) (userMessage : value)
    (retries delay : Z) : M exit :=
  match attempts with
  | [] => ret Exceeded
  | attempt :: later =>
      c <- try_block userMessage ;;
      match c with
      | Normal reply => ret (Return reply)
      | Throw error =>
          if rate_limited error && (attempt <? retries) then
            console_warn attempt retries delay ;;
            setTimeout delay ;;
            attempt_loop later userMessage retries (delay * 2)
          else
            ret (Rethrow error)
      end
  end.

(** Lines 42-81.  [retries] and [delay] are integers, a count of attempts
    and a number of milliseconds, on which [attempt++] and [delay *= 2] are
    exact. *)
Definition callGPTWithRetry (userMessage : value) (retries delay : Z) : M exit :=
  attempt_loop (attempt_range retries) userMessage retries delay.

End WithUpstream.

End Client.

(** ** The per-call retry state machine

    One invocation of [callGPTWithRetry] as a machine whose steps are the
    stretches of code between two suspension points: the locals [attempt]
    and [delay], where control stands, and what the invocation has done. *)

Module Machine.
Import JS Client.
Local Open Scope client_scope.

Inductive control : Type :=
| LoopTest               (* line 43: about to test attempt <= retries *)
| AwaitPost              (* line 45: suspended in await axios.post(...) *)
| AwaitTimer             (* line 72: suspended in await new Promise(...) *)
| Exited (x : exit).     (* the invocation has returned or thrown *)

Record RetryState : Type := mkState {
  attempt : Z;
  delay : Z;
  pc : control;
  effects : world
}.

Section WithUpstream.

Variable OPENAI_API_KEY : jsstring.
Variable upstream : nat -> request -> settled.
Variable userMessage : value.
Variable retries : Z.

(** Entry of the function with [delay = d]: [let attempt = 1]. *)
Definition start (d : Z) : RetryState := mkState 1 d LoopTest fresh.

Definition step (s : RetryState) : option RetryState :=
  let req := build_request OPENAI_API_KEY userMessage in
  match pc s with
  | LoopTest =>
      if attempt s <=? retries then
        Some (mkState (attempt s) (delay s) AwaitPost
                (emit (Post req) (effects s)))
      else
        Some (mkState (attempt s) (delay s) (Exited Exceeded) (effects s))
  | AwaitPost =>
      let w := mkWorld (S (calls (effects s))) (trace (effects s)) in
      match try_completion (upstream (calls (effects s)) req) with
      | Normal reply =>
          Some (mkState (attempt s) (delay s) (Exited (Return reply)) w)
      | Throw error =>
          if rate_limited error && (attempt s <? retries) then
            Some (mkState (attempt s) (delay s) AwaitTimer
                    (emit (Timeout (delay s))
                       (emit (Warn (attempt s) retries (delay s)) w)))
          else
            Some (mkState (attempt s) (delay s) (Exited (Rethrow error)) w)
      end
  | AwaitTimer =>
      (* line 73, then attempt++ *)
      Some (mkState (attempt s + 1) (delay s * 2) LoopTest (effects s))
  | Exited _ => None
  end.

(** [n] steps, stopping early in a terminal state. *)
Fixpoint run (n : nat) (s : RetryState) : RetryState :=
  match n with
  | O => s
  | S n' =>
      match step s with
      | Some s' => run n' s'
      | None => s
      end
  end.

(** The states an invocation with initial delay [d] goes through. *)
Inductive reachable (d : Z) : RetryState -> Prop :=
| reach_start : reachable d (start d)
| reach_step s s' : reachable d s -> step s = Some s' -> reachable d s'.

End WithUpstream.

(** *** Two invocations in flight

    The scheduler resumes one suspended invocation at a time; [true] picks
    the first.  Resuming an invocation that has exited does nothing. *)

Record invocation : Type := mkInvocation {
  inv_upstream : nat -> request -> settled;
  inv_userMessage : value;
  inv_retries : Z
}.

Definition resume (key : jsstring) (i : invocation) (s : RetryState) : RetryState :=
  match step key (inv_upstream i) (inv_userMessage i) (inv_retries i) s with
  | Some s' => s'
  | None => s
  end.

Fixpoint interleave (key : jsstring) (i1 i2 : invocation) (schedule : list bool)
    (s : RetryState * RetryState) : RetryState * RetryState :=
  match schedule with
  | [] => s
  | true :: later => interleave key i1 i2 later (resume key i1 (fst s), snd s)
  | false :: later => interleave key i1 i2 later (fst s, resume key i2 (snd s))
  end.

End Machine.

(** ** The process: calls in flight over one store

    The calls of [callGPTWithRetry] that are in flight at once run in one
    process.  They share the module scope, the console, the network and
    the timers; each has the scope that its own entry into the function
    created.  An identifier is resolved in the scope of the call first and
    in the module scope next, so what a call shares with the others is
    decided by what the function declares. *)

Module Process.
Import JS Client Machine.
Local Open Scope string_scope.

(** An environment record: the bindings declared in one scope. *)
Definition scope := list (string * value).

Fixpoint binding (x : string) (s : scope) : option value :=
  match s with
  | [] => None
  | (y, v) :: rest => if String.eqb x y then Some v else binding x rest
  end.

Fixpoint rebind (x : string) (v : value) (s : scope) : scope :=
  match s with
  | [] => []
  | (y, u) :: rest =>
      if String.eqb x y then (y, v) :: rest else (y, u) :: rebind x v rest
  end.

(** A call in flight: its function scope and where it is suspended. *)
Record activation : Type := mkActivation { locals : scope; suspended : control }.

(** The process: the module scope, the calls in flight (a call is known by
    its position) and everything done so far, in order, each effect with
    the call that caused it. *)
Record process : Type := mkProcess {
  globals : scope;
  in_flight : list activation;
  history : list (nat * event)
}.

(** Lines 42-43, entry into the function: the parameters are bound in a new
    scope, and so is the [attempt] of the loop ([let attempt = 1]). *)
Definition invoke (userMessage : value) (retries delay : Z) : activation :=
  mkActivation
    [ ("userMessage", userMessage); ("retries", VNum retries);
      ("delay", VNum delay); ("attempt", VNum 1) ]
    LoopTest.

Fixpoint replace_nth {A} (i : nat) (a : A) (l : list A) : list A :=
  match l, i with
  | [], _ => []
  | _ :: rest, O => a :: rest
  | b :: rest, S j => b :: replace_nth j a rest
  end.

(** Reading identifier [x] in call [i]: the scope of the call, then the
    module scope; [undefined] stands for an identifier that resolves
    nowhere. *)
Definition resolve (p : process) (i : nat) (x : string) : value :=
  match nth_error (in_flight p) i with
  | Some a =>
      match binding x (locals a) with
      | Some v => v
      | None =>
          match binding x (globals p) with
          | Some v => v
          | None => VUndefined
          end
      end
  | None => VUndefined
  end.

(** Assigning to identifier [x] in call [i]: the binding of the call if it
    has one, else the binding of the module scope, which an assignment to
    an undeclared identifier creates. *)
Definition assign (i : nat) (x : string) (v : value) (p : process) : process :=
  match nth_error (in_flight p) i with
  | Some a =>
      match binding x (locals a) with
      | Some _ =>
          mkProcess (globals p)
            (replace_nth i (mkActivation (rebind x v (locals a)) (suspended a))
               (in_flight p))
            (history p)
      | None =>
          match binding x (globals p) with
          | Some _ => mkProcess (rebind x v (globals p)) (in_flight p) (history p)
          | None =>
              mkProcess (globals p ++ [(x, v)])%list (in_flight p) (history p)
          end
      end
  | None => p
  end.

(** Call [i] is now at [c]. *)
Definition suspend (i : nat) (c : control) (p : process) : process :=
  match nth_error (in_flight p) i with
  | Some a =>
      mkProcess (globals p) (replace_nth i (mkActivation (locals a) c) (in_flight p))
        (history p)
  | None => p
  end.

(** Call [i] does [e]. *)
Definition record (i : nat) (e : event) (p : process) : process :=
  mkProcess (globals p) (in_flight p) (history p ++ [(i, e)])%list.

(** The number an identifier holds.  Coercion of other values to numbers is
    left out: the function is entered with numbers. *)
Definition number_of (p : process) (i : nat) (x : string) : option Z :=
  match resolve p i x with
  | VNum n => Some n
  | _ => None
  end.

(** What call [i] has done. *)
Definition own_events (i : nat) (h : list (nat * event)) : list event :=
  map snd (filter (fun e => Nat.eqb (fst e) i) h).

Fixpoint count_posts (t : list event) : nat :=
  match t with
  | [] => O
  | Post _ :: rest => S (count_posts rest)
  | _ :: rest => count_posts rest
  end.

Section WithProvider.

Variable OPENAI_API_KEY : jsstring.

(** The provider as the process sees it: how a call of [axios.post] by
    call [i] settles, given everything that has happened in the process
    when it does and the request sent. *)
Variable provider : list (nat * event) -> nat -> request -> settled.

(** The scheduler resumes call [i]: the code from where it is suspended to
    its next [await], or to its exit. *)
Definition resume (i : nat) (p : process) : process :=
  match nth_error (in_flight p) i with
  | None => p
  | Some a =>
      let req := build_request OPENAI_API_KEY (resolve p i "userMessage") in
      match suspended a with
      | LoopTest =>
          match number_of p i "attempt", number_of p i "retries" with
          | Some attempt, Some retries =>
              if (attempt <=? retries)%Z then
                suspend i AwaitPost (record i (Post req) p)
              else
                suspend i (Exited Exceeded) p
          | _, _ => p
          end
      | AwaitPost =>
          match try_completion (provider (history p) i req) with
          | Normal reply => suspend i (Exited (Return reply)) p
          | Throw error =>
              if rate_limited error then
                match number_of p i "attempt", number_of p i "retries",
                      number_of p i "delay" with
                | Some attempt, Some retries, Some delay =>
                    if (attempt <? retries)%Z then
                      suspend i AwaitTimer
                        (record i (Timeout delay)
                           (record i (Warn attempt retries delay) p))
                    else
                      suspend i (Exited (Rethrow error)) p
                | _, _, _ => p
                end
              else
                suspend i (Exited (Rethrow error)) p
          end
      | AwaitTimer =>
          (* line 73, then attempt++ *)
          match number_of p i "delay" with
          | Some delay =>
              let p1 := assign i "delay" (VNum (delay * 2)) p in
              match number_of p1 i "attempt" with
              | Some attempt =>
                  suspend i LoopTest (assign i "attempt" (VNum (attempt + 1)) p1)
              | None => p
              end
          | None => p
          end
      | Exited _ => p
      end
  end.

(** A schedule of two calls: [true] resumes call 0, [false] call 1. *)
Fixpoint concurrently (schedule : list bool) (p : process) : process :=
  match schedule with
  | [] => p
  | true :: later => concurrently later (resume 0 p)
  | false :: later => concurrently later (resume 1 p)
  end.

End WithProvider.

(** Two calls entered in a process with module scope [g]. *)
Definition two_calls (g : scope) (um1 : value) (r1 d1 : Z)
    (um2 : value) (r2 d2 : Z) : process :=
  mkProcess g [invoke um1 r1 d1; invoke um2 r2 d2] [].

(** The provider treats the calls independently: how a call of
    [axios.post] settles depends only on which call issued it, on how many
    it had issued before, and on the request; [u i] is the behaviour call
    [i] meets. *)
Definition independent
    (provider : list (nat * event) -> nat -> request -> settled)
    (u : nat -> nat -> request -> settled) : Prop :=
  forall h i req,
    provider h i req = u i (Nat.pred (count_posts (own_events i h))) req.

(** The scope of a call whose [attempt] and [delay] are those of a state of
    the retry machine, suspended where that state is. *)
Definition activation_of (userMessage : value) (retries : Z) (s : RetryState)
  : activation :=
  mkActivation
    [ ("userMessage", userMessage); ("retries", VNum retries);
      ("delay", VNum (delay s)); ("attempt", VNum (attempt s)) ]
    (pc s).

(** In a state of the retry machine the calls counted are those of the
    trace, the one being awaited apart. *)
Definition calls_agree (s : RetryState) : Prop :=
  count_posts (trace (effects s)) =
  (calls (effects s) + match pc s with AwaitPost => 1 | _ => 0 end)%nat.

End Process.

(** ** The gateway endpoint *)

Module Gateway.
Import JS Client.
Local Open Scope client_scope.

(** What the handler sends: [res.status(code).json(body)]. *)
Record http_response : Type := mkHttp { code : Z; body : value }.

Definition reply_payload (text : jsstring) : value :=
  VObj [ (lit "reply", VStr text) ].

(** Defaults of the parameters of [callGPTWithRetry]. *)
Definition default_retries : Z := 3.
Definition default_delay : Z := 1000.

Section WithUpstream.

Variable OPENAI_API_KEY : jsstring.
Variable upstream : nat -> request -> settled.

Definition console_error (detail : value) : M unit :=
  fun w => (tt, emit (LogError detail) w).

(** Lines 84-99, on [req.body].  A throw escapes the handler only from
    [req.body.message]. *)
Definition chat (req_body : value) : M (completion http_response) :=
  match get req_body "message" with
  | Throw e => ret (Throw e)
  | Normal userMessage =>
      if negb (to_boolean userMessage) then
        ret (Normal (mkHttp 400 (reply_payload (lit "No message provided."))))
      else
        x <- callGPTWithRetry OPENAI_API_KEY upstream userMessage
               default_retries default_delay ;;
        match settle x with
        | Normal replyText =>
            ret (Normal (mkHttp 200 (reply_payload replyText)))
        | Throw error =>
            console_error (match eresponse error with
                           | Some r => data r
                           | None => VStr (message error)
                           end) ;;
            ret (Normal (mkHttp 500
                   (reply_payload
                      (lit "Sorry, something went wrong: " ++ message error))))
        end
  end.

End WithUpstream.

End Gateway.

(** ** Vocabulary of the specification *)

Module Spec.
Import JS Client.

(** The upstream explicitly signals rate limiting: the promise rejects with
    an error that carries a response of status 429. *)
Definition signals_rate_limit (s : settled) : Prop :=
  exists e r, s = Rejected e /\ eresponse e = Some r /\ status r = 429.

(** A failure that is not an explicit rate-limit signal: no HTTP response
    at all, or a status other than 429. *)
Definition fails_otherwise (s : settled) (e : error) : Prop :=
  s = Rejected e /\
  (eresponse e = None \/ exists r, eresponse e = Some r /\ status r <> 429).

(** The message content of a choice, when it has one. *)
Definition message_content (choice : value) : option value :=
  match choice with
  | VObj c =>
      match lookup (lit "message") c with
      | Some (VObj m) => lookup (lit "content") m
      | _ => None
      end
  | _ => None
  end.

(** The text of a success body: an object whose [choices] is a sequence,
    the first of which has a string as its message content. *)
Definition first_choice_text (body : value) : option jsstring :=
  match body with
  | VObj fields =>
      match lookup (lit "choices") fields with
      | Some (VArr (choice :: _)) =>
          match message_content choice with
          | Some (VStr text) => Some text
          | _ => None
          end
      | _ => None
      end
  | _ => None
  end.

(** The upstream call succeeds and the first choice reads [text]. *)
Definition succeeds_with (s : settled) (text : jsstring) : Prop :=
  exists r, s = Resolved r /\ first_choice_text (data r) = Some text.

(** A success body that is malformed: no [choices], an empty [choices]
    sequence, or a first choice without message content. *)
Inductive malformed : value -> Prop :=
| no_choices fields :
    lookup (lit "choices") fields = None -> malformed (VObj fields)
| empty_choices fields :
    lookup (lit "choices") fields = Some (VArr []) -> malformed (VObj fields)
| no_content fields choice others :
    lookup (lit "choices") fields = Some (VArr (choice :: others)) ->
    message_content choice = None ->
    malformed (VObj fields).

(** The delays of the backoff waits in a trace, in order. *)
Fixpoint waits (t : list event) : list Z :=
  match t with
  | [] => []
  | Timeout d :: rest => d :: waits rest
  | _ :: rest => waits rest
  end.

(** The number of upstream calls in a trace. *)
Fixpoint posts (t : list event) : nat :=
  match t with
  | [] => O
  | Post _ :: rest => S (posts rest)
  | _ :: rest => posts rest
  end.

(** [d, 2d, 4d, ...], [k] terms. *)
Definition doubling (d : Z) (k : nat) : list Z :=
  map (fun i => d * 2 ^ Z.of_nat i) (seq 0 k).

(** The effects of [k] consecutive rate-limited attempts that are retried,
    the first being attempt number [a] with delay [d]. *)
Fixpoint retry_rounds (req : request) (k : nat) (a retries d : Z) : list event :=
  match k with
  | O => []
  | S k' =>
      Post req :: Warn a retries d :: Timeout d
        :: retry_rounds req k' (a + 1) retries (d * 2)
  end.

(** What holds of the retry state at every suspension point of an
    invocation with [maxAttempts = retries] and initial delay [d]: the
    attempt counter stays within [1..retries], the delay has been doubled
    once per retried attempt, the fallback of line 80 has not been taken,
    a wait is only ever entered with attempts remaining, and the counter
    agrees with the calls and waits performed so far. *)
Definition retry_invariant (retries d : Z) (s : Machine.RetryState) : Prop :=
  1 <= Machine.attempt s <= retries /\
  Machine.delay s = d * 2 ^ (Machine.attempt s - 1) /\
  Machine.pc s <> Machine.Exited Exceeded /\
  (Machine.pc s = Machine.AwaitTimer -> Machine.attempt s < retries) /\
  posts (trace (Machine.effects s)) =
    match Machine.pc s with
    | Machine.LoopTest => Z.to_nat (Machine.attempt s - 1)
    | _ => Z.to_nat (Machine.attempt s)
    end /\
  calls (Machine.effects s) =
    match Machine.pc s with
    | Machine.LoopTest | Machine.AwaitPost => Z.to_nat (Machine.attempt s - 1)
    | _ => Z.to_nat (Machine.attempt s)
    end /\
  waits (trace (Machine.effects s)) =
    doubling d
      match Machine.pc s with
      | Machine.AwaitTimer => Z.to_nat (Machine.attempt s)
      | _ => Z.to_nat (Machine.attempt s - 1)
      end.

(** How many times a schedule resumes the first ([true]) or the second
    ([false]) invocation. *)
Definition resumes (which : bool) (schedule : list bool) : nat :=
  count_occ Bool.bool_dec schedule which.

End Spec.

(** ** Provider mocks *)

Module Mocks.
Import JS Client.

(** A success body of the documented shape, with one choice. *)
Definition completion_body (text : jsstring) : value :=
  VObj [ (lit "id", VStr (lit "chatcmpl-1"));
         (lit "choices",
          VArr [ VObj [ (lit "index", VNum 0);
                        (lit "message",
                         VObj [ (lit "role", VStr (lit "assistant"));
                                (lit "content", VStr text) ]) ] ]) ].

Definition ok (text : jsstring) : settled :=
  Resolved (mkResponse 200 (completion_body text)).

(** HTTP 429 as axios reports it. *)
Definition too_many_requests : settled :=
  Rejected (mkError (lit "Request failed with status code 429")
              (Some (mkResponse 429 (VObj [ (lit "error", VStr (lit "rate limit")) ])))).

(** A failure without any HTTP response. *)
Definition boom : error := mkError (lit "boom") None.

(** HTTP 401. *)
Definition unauthorized : error :=
  mkError (lit "Request failed with status code 401")
    (Some (mkResponse 401 (VObj []))).

Definition always (s : settled) : nat -> request -> settled := fun _ _ => s.

(** Rate-limited on the first [n] calls, then successful. *)
Definition limited_then_ok (n : nat) (text : jsstring) : nat -> request -> settled :=
  fun i _ => if (i <? n)%nat then too_many_requests else ok text.

(** Rate-limited on the first [n] calls, then a 200 with the given body. *)
Definition limited_then_body (n : nat) (b : value) : nat -> request -> settled :=
  fun i _ => if (i <? n)%nat then too_many_requests else Resolved (mkResponse 200 b).

Definition hello : value := VStr (lit "hello").

End Mocks.

(** ** Providers and processes for two calls in flight *)

Module ProcessMocks.
Import JS Client Machine Mocks.

(** The provider that shows each call its own behaviour. *)
Definition serving (u : nat -> nat -> request -> settled)
  : list (nat * event) -> nat -> request -> settled :=
  fun h i req => u i (Nat.pred (Process.count_posts (Process.own_events i h))) req.

(** Call 0 is always answered, call 1 always rate-limited. *)
Definition answered_and_limited : nat -> nat -> request -> settled :=
  fun i => match i with
           | O => always (ok (lit "hi there"))
           | S _ => always too_many_requests
           end.

(** A provider with one quota for the whole process: it answers the first
    call it receives and rate-limits every later one, whoever issues it. *)
Definition one_quota : list (nat * event) -> nat -> request -> settled :=
  fun h _ _ =>
    if (Process.count_posts (map snd h) <=? 1)%nat then ok (lit "hi there")
    else too_many_requests.

(** A process as it would be if [delay] were a variable of the module and
    not a parameter: neither call binds it, the module scope does. *)
Definition with_module_level_delay : Process.process :=
  Process.mkProcess
    [ ("delay"%string, VNum 1000) ]
    [ Process.mkActivation
        [ ("userMessage"%string, hello); ("retries"%string, VNum 3);
          ("attempt"%string, VNum 1) ] LoopTest;
      Process.mkActivation
        [ ("userMessage"%string, hello); ("retries"%string, VNum 3);
          ("attempt"%string, VNum 1) ] LoopTest ]
    [].

End ProcessMocks.

(** ** Process start-up *)

Module Startup.
Import JS Client.

(** [process.env] once [dotenv] has loaded the [.env] file: names to
    strings. *)
Definition environment := list (jsstring * jsstring).

Fixpoint getenv (name : jsstring) (env : environment) : option jsstring :=
  match env with
  | [] => None
  | (k, v) :: rest => if jsstring_eqb name k then Some v else getenv name rest
  end.

(** [process.env.NAME] as a JavaScript value. *)
Definition env_value (name : string) (env : environment) : value :=
  match getenv (lit name) env with
  | Some v => VStr v
  | None => VUndefined
  end.

Record config : Type := mkConfig { PORT : value; OPENAI_API_KEY : jsstring }.

(** How lines 9-15 end: [process.exit(1)] after the [console.error] of
    line 13, or control passing on with [PORT] and the key determined.
    Whether the server then comes to listen on [PORT] (line 108) is up to
    the port and the host, and is not part of this. *)
Inductive checked : Type :=
| ExitsAtCheck (code : Z) (logged : jsstring)
| PassesCheck (c : config).

(** Lines 9-15. *)
Definition check_environment (env : environment) : checked :=
  let port :=
    if to_boolean (env_value "PORT" env) then env_value "PORT" env else VNum 3000 in
  match env_value "OPENAI_API_KEY" env with
  | VStr key =>
      if negb (to_boolean (VStr key)) then
        ExitsAtCheck 1 (lit "Error: OPENAI_API_KEY is not defined in the environment.")
      else PassesCheck (mkConfig port key)
  | _ =>
      ExitsAtCheck 1 (lit "Error: OPENAI_API_KEY is not defined in the environment.")
  end.

End Startup.

(** ** Measures on traces and requests *)

Module Measures.
Import JS Client.

(** The sum of a list of delays. *)
Definition total (l : list Z) : Z := fold_right Z.add 0 l.

(** The value of a request header. *)
Fixpoint assoc (name : jsstring) (l : list (jsstring * jsstring)) : option jsstring :=
  match l with
  | [] => None
  | (k, v) :: rest => if jsstring_eqb name k then Some v else assoc name rest
  end.

Definition header (name : string) (req : request) : option jsstring :=
  assoc (lit name) (headers req).

(** The requests of the upstream calls in a trace. *)
Fixpoint posted_requests (t : list event) : list request :=
  match t with
  | [] => []
  | Post req :: rest => req :: posted_requests rest
  | _ :: rest => posted_requests rest
  end.

(** The details written by [console.error]. *)
Fixpoint logged_errors (t : list event) : list value :=
  match t with
  | [] => []
  | LogError v :: rest => v :: logged_errors rest
  | _ :: rest => logged_errors rest
  end.

(** Neither end of the string is a whitespace or line-terminator unit. *)
Definition trimmed (s : jsstring) : Prop :=
  (forall c rest, s = c :: rest -> is_trimmable c = false) /\
  (forall c front, s = front ++ [c] -> is_trimmable c = false).

(** The upstream as seen after [c] calls have been issued. *)
Definition after_calls (c : nat) (upstream : nat -> request -> settled)
  : nat -> request -> settled :=
  fun i => upstream (c + i)%nat.

(** The first [k] calls are answered by failures the loop takes for
    rate limiting. *)
Definition rate_limited_before (upstream : nat -> request -> settled)
    (req : request) (first k : nat) : Prop :=
  forall i, (i < k)%nat ->
    exists e, try_completion (upstream (first + i)%nat req) = Throw e /\
              rate_limited e = true.

End Measures.

(** ** Facts about the JavaScript fragment *)

Import JS Client Spec.
Local Open Scope client_scope.

Lemma trimStart_split (s : jsstring) :
  exists pre, s = pre ++ trimStart s /\ forallb is_trimmable pre = true.
Proof.
  induction s as [|c s [pre [Hs Hpre]]].
  - exists []. split; reflexivity.
  - simpl. destruct (is_trimmable c) eqn:Hc.
    + exists (c :: pre). simpl. rewrite Hc, Hpre. split; [congruence | reflexivity].
    + exists []. split; reflexivity.
Qed.

Lemma trimStart_head (s : jsstring) c rest :
  trimStart s = c :: rest -> is_trimmable c = false.
Proof.
  induction s as [|x s IH]; simpl; [discriminate|].
  destruct (is_trimmable x) eqn:Hx; [exact IH|].
  intros H. injection H as -> _. exact Hx.
Qed.

(** [trim] keeps a contiguous part of the string and strips only
    whitespace and line terminators around it. *)
Lemma trim_split (s : jsstring) :
  exists pre post,
    s = pre ++ trim s ++ post /\
    forallb is_trimmable pre = true /\ forallb is_trimmable post = true.
Proof.
  unfold trim, trimEnd.
  destruct (trimStart_split s) as [pre [Hs Hpre]].
  destruct (trimStart_split (rev (trimStart s))) as [q [Hr Hq]].
  exists pre, (rev q). repeat split.
  - rewrite Hs at 1. f_equal.
    rewrite <- rev_app_distr, <- Hr, rev_involutive. reflexivity.
  - exact Hpre.
  - rewrite forallb_forall in *. intros x Hx. apply Hq, in_rev. exact Hx.
Qed.

(** Nothing strippable is left at either end of a trimmed string. *)
Lemma trim_ends (s : jsstring) :
  (forall c rest, trim s = c :: rest -> is_trimmable c = false) /\
  (forall c front, trim s = front ++ [c] -> is_trimmable c = false).
Proof.
  split.
  - unfold trim, trimEnd. intros c rest H.
    destruct (trimStart_split (rev (trimStart s))) as [q [Hr _]].
    assert (Hs : trimStart s = rev (trimStart (rev (trimStart s))) ++ rev q).
    { rewrite <- rev_app_distr, <- Hr, rev_involutive. reflexivity. }
    rewrite H in Hs. simpl in Hs. eapply trimStart_head. exact Hs.
  - unfold trim, trimEnd. intros c front H.
    apply (f_equal (@rev N)) in H.
    rewrite rev_involutive, rev_app_distr in H. simpl in H.
    eapply trimStart_head. exact H.
Qed.

Lemma rate_limit_signal_detected (s : settled) :
  signals_rate_limit s -> exists e, s = Rejected e /\ rate_limited e = true.
Proof.
  intros [e [r [Hs [He Hr]]]]. exists e. split; [exact Hs|].
  unfold rate_limited. rewrite He. apply Z.eqb_eq. exact Hr.
Qed.

Lemma other_failure_not_retried (s : settled) (e : error) :
  fails_otherwise s e -> rate_limited e = false.
Proof.
  intros [_ [He | [r [He Hr]]]]; unfold rate_limited; rewrite He.
  - reflexivity.
  - apply Z.eqb_neq. exact Hr.
Qed.

(** On a body of the documented shape the extraction of line 67 yields the
    trimmed text of the first choice. *)
Lemma extract_reply_text (r : response) (text : jsstring) :
  first_choice_text (data r) = Some text -> extract_reply r = Normal (trim text).
Proof.
  unfold first_choice_text, extract_reply, message_content.
  destruct (data r) as [ | | | | | |fields]; try discriminate.
  cbn [JS.bind get].
  destruct (lookup (lit "choices") fields) as [[ | | | | |items| ]|]; try discriminate.
  destruct items as [|choice others]; [discriminate|].
  destruct choice as [ | | | | | |c]; try discriminate.
  cbn [JS.bind get get_index nth].
  destruct (lookup (lit "message") c) as [[ | | | | | |m]|]; try discriminate.
  cbn [JS.bind get].
  destruct (lookup (lit "content") m) as [[ | | | |t| | ]|]; try discriminate.
  intros H. injection H as ->. reflexivity.
Qed.

(** Whatever the extraction throws is a [TypeError]: it has no [response]. *)
Lemma extract_reply_throw (r : response) (e : error) :
  extract_reply r = Throw e -> eresponse e = None.
Proof.
  unfold extract_reply.
  assert (Hget : forall v n x, get v n = Throw x -> eresponse x = None).
  { intros v n x. unfold get. destruct v; try discriminate;
      try (intros H; injection H as <-; reflexivity).
    destruct (lookup (lit n) fields); discriminate. }
  assert (Hidx : forall v i x, get_index v i = Throw x -> eresponse x = None).
  { intros v i x. unfold get_index. destruct v; try discriminate;
      try (intros H; injection H as <-; reflexivity).
    - destruct (nth_error s i); discriminate.
    - destruct (lookup (lit (index_key i)) fields); discriminate. }
  assert (Htrim : forall v x, call_trim v = Throw x -> eresponse x = None).
  { intros v x. unfold call_trim. destruct v; try discriminate;
      intros H; injection H as <-; reflexivity. }
  destruct (get (data r) "choices") as [choices|x] eqn:H1; simpl.
  2:{ intros H; injection H as <-. eapply Hget; eassumption. }
  destruct (get_index choices 0) as [first|x] eqn:H2; simpl.
  2:{ intros H; injection H as <-. eapply Hidx; eassumption. }
  destruct (get first "message") as [msg|x] eqn:H3; simpl.
  2:{ intros H; injection H as <-. eapply Hget; eassumption. }
  destruct (get msg "content") as [text|x] eqn:H4; simpl.
  2:{ intros H; injection H as <-. eapply Hget; eassumption. }
  apply Htrim.
Qed.

(** On a malformed body the extraction throws. *)
Lemma extract_reply_malformed (r : response) :
  malformed (data r) -> exists e, extract_reply r = Throw e.
Proof.
  unfold extract_reply. intros H.
  inversion H as [fields Hc Hd | fields Hc Hd | fields choice others Hc Hm Hd];
    cbn [JS.bind get]; rewrite Hc; cbn [JS.bind get get_index nth].
  - eexists. reflexivity.
  - eexists. reflexivity.
  - unfold message_content in Hm.
    destruct choice as [ | | | | | |c]; try (eexists; reflexivity).
    cbn [JS.bind get].
    destruct (lookup (lit "message") c) as [[ | | | | | |m]|];
      try (eexists; reflexivity).
    cbn [JS.bind get]. rewrite Hm. eexists. reflexivity.
Qed.

(** ** The retry loop, one iteration at a time *)

Section RetryLoop.

Variable key : jsstring.
Variable upstream : nat -> request -> settled.
Variable um : value.
Variable retries : Z.

Local Abbreviation req := (build_request key um).
Local Abbreviation loop := (attempt_loop key upstream).
Local Abbreviation posted w := (mkWorld (S (calls w)) (trace w ++ [Post req])).
Local Abbreviation attempt_result w := (try_completion (upstream (calls w) req)).

Lemma attempt_loop_nil d w : loop [] um retries d w = (Exceeded, w).
Proof. reflexivity. Qed.

Lemma attempt_loop_return a later d w reply :
  attempt_result w = Normal reply ->
  loop (a :: later) um retries d w = (Return reply, posted w).
Proof.
  intros H. cbn [attempt_loop]. unfold mbind, try_block, axios_post, mbind, ret.
  rewrite H. reflexivity.
Qed.

Lemma attempt_loop_rethrow a later d w e :
  attempt_result w = Throw e ->
  rate_limited e && (a <? retries) = false ->
  loop (a :: later) um retries d w = (Rethrow e, posted w).
Proof.
  intros H Hno. cbn [attempt_loop]. unfold mbind, try_block, axios_post, mbind, ret.
  rewrite H, Hno. reflexivity.
Qed.

Lemma attempt_loop_retry a later d w e :
  attempt_result w = Throw e ->
  rate_limited e = true ->
  a < retries ->
  loop (a :: later) um retries d w =
  loop later um retries (d * 2)
    (mkWorld (S (calls w)) (trace w ++ [Post req; Warn a retries d; Timeout d])).
Proof.
  intros H Hrl Ha. cbn [attempt_loop].
  unfold mbind, try_block, axios_post, mbind, ret.
  rewrite H, Hrl. apply Z.ltb_lt in Ha. rewrite Ha. cbn [andb].
  unfold console_warn, setTimeout, emit. cbn [calls trace].
  rewrite <- !app_assoc. reflexivity.
Qed.

(** [k] rate-limited attempts in a row, none of them the last one, are all
    retried: the loop goes on with the delay doubled [k] times. *)
Lemma attempt_loop_rounds k :
  forall a later d w,
    (forall i, (i < k)%nat -> signals_rate_limit (upstream (calls w + i)%nat req)) ->
    Z.of_nat a + Z.of_nat k <= retries ->
    loop (map Z.of_nat (seq a k) ++ later) um retries d w =
    loop later um retries (d * 2 ^ Z.of_nat k)
      (mkWorld (calls w + k) (trace w ++ retry_rounds req k (Z.of_nat a) retries d)).
Proof.
  induction k as [|k IH]; intros a later d w Hrl Hle.
  - cbn [seq map app retry_rounds]. rewrite Nat.add_0_r, app_nil_r, Z.mul_1_r.
    destruct w. reflexivity.
  - cbn [seq map app].
    destruct (rate_limit_signal_detected _ (Hrl O ltac:(lia))) as [e [He Hdet]].
    rewrite Nat.add_0_r in He.
    rewrite (attempt_loop_retry _ _ _ _ e); [ | rewrite He; reflexivity | exact Hdet | lia ].
    rewrite IH.
    + cbn [calls trace retry_rounds].
      replace (S (calls w) + k)%nat with (calls w + S k)%nat by lia.
      replace (d * 2 * 2 ^ Z.of_nat k) with (d * 2 ^ Z.of_nat (S k))
        by (rewrite Nat2Z.inj_succ, Z.pow_succ_r; lia).
      replace (Z.of_nat (S a)) with (Z.of_nat a + 1) by lia.
      rewrite <- app_assoc. reflexivity.
    + intros i Hi. cbn [calls].
      replace (S (calls w) + i)%nat with (calls w + S i)%nat by lia.
      apply Hrl. lia.
    + lia.
Qed.

(** The same from the entry of the function. *)
Lemma callGPTWithRetry_rounds k d :
  (forall i, (i < k)%nat -> signals_rate_limit (upstream i req)) ->
  Z.of_nat k < retries ->
  callGPTWithRetry key upstream um retries d fresh =
  loop (map Z.of_nat (seq (S k) (Z.to_nat retries - k))) um retries
    (d * 2 ^ Z.of_nat k) (mkWorld k (retry_rounds req k 1 retries d)).
Proof.
  intros Hrl Hk. unfold callGPTWithRetry, attempt_range.
  replace (Z.to_nat retries) with (k + (Z.to_nat retries - k))%nat at 1 by lia.
  rewrite seq_app, map_app, attempt_loop_rounds.
  - reflexivity.
  - exact Hrl.
  - lia.
Qed.

End RetryLoop.

Lemma waits_app t1 t2 : waits (t1 ++ t2) = waits t1 ++ waits t2.
Proof.
  induction t1 as [|e t1 IH]; [reflexivity|].
  destruct e; cbn [app waits]; rewrite IH; reflexivity.
Qed.

Lemma posts_app t1 t2 : posts (t1 ++ t2) = (posts t1 + posts t2)%nat.
Proof.
  induction t1 as [|e t1 IH]; [reflexivity|].
  destruct e; cbn [app posts]; rewrite IH; reflexivity.
Qed.

Lemma doubling_succ d k : doubling d (S k) = d :: doubling (d * 2) k.
Proof.
  unfold doubling. cbn [seq map]. f_equal.
  - cbn. lia.
  - rewrite <- seq_shift, map_map. apply map_ext. intros i.
    rewrite Nat2Z.inj_succ, Z.pow_succ_r; lia.
Qed.

(** The waits of [k] retried attempts are [d, 2d, 4d, ...]. *)
Lemma waits_retry_rounds req k : forall a retries d,
  waits (retry_rounds req k a retries d) = doubling d k.
Proof.
  induction k as [|k IH]; intros a retries d; [reflexivity|].
  cbn [retry_rounds waits]. rewrite IH, doubling_succ. reflexivity.
Qed.

Lemma posts_retry_rounds req k : forall a retries d,
  posts (retry_rounds req k a retries d) = k.
Proof.
  induction k as [|k IH]; intros a retries d; [reflexivity|].
  cbn [retry_rounds posts]. rewrite IH. reflexivity.
Qed.

(** ** The contract of the retrying completion client *)

Import Mocks.

Example two_retries_then_reply :
  callGPTWithRetry [] (limited_then_ok 2 (lit "  hi there ")) hello 3 1000 fresh =
  (Return (lit "hi there"),
   mkWorld 3 [ Post (build_request [] hello); Warn 1 3 1000; Timeout 1000;
               Post (build_request [] hello); Warn 2 3 2000; Timeout 2000;
               Post (build_request [] hello) ]).
Proof. vm_compute. reflexivity. Qed.

Example limited_throughout :
  callGPTWithRetry [] (always too_many_requests) hello 3 1000 fresh =
  (match too_many_requests with Rejected e => Rethrow e | _ => Exceeded end,
   mkWorld 3 [ Post (build_request [] hello); Warn 1 3 1000; Timeout 1000;
               Post (build_request [] hello); Warn 2 3 2000; Timeout 2000;
               Post (build_request [] hello) ]).
Proof. vm_compute. reflexivity. Qed.

(** C1: with [maxAttempts = N >= 1] and initial delay [d], if the upstream
    signals rate limiting (HTTP 429) on attempts [1..N-1] and succeeds on
    attempt [N], the call returns the success value, the trimmed text of the
    first choice, after exactly [N-1] backoff waits, which are
    [d, 2d, 4d, ...]: every retried failure doubles the delay of the next
    wait. *)
Theorem C1_backoff_until_success
    (key : jsstring) (upstream : nat -> request -> settled) (um : value)
    (N d : Z) (text : jsstring) :
  1 <= N ->
  (forall i : nat, Z.of_nat i + 1 < N ->
     signals_rate_limit (upstream i (build_request key um))) ->
  succeeds_with (upstream (Z.to_nat (N - 1)) (build_request key um)) text ->
  exists w,
    callGPTWithRetry key upstream um N d fresh = (Return (trim text), w) /\
    trace w = retry_rounds (build_request key um) (Z.to_nat (N - 1)) 1 N d
                ++ [Post (build_request key um)] /\
    waits (trace w) = doubling d (Z.to_nat (N - 1)) /\
    List.length (waits (trace w)) = Z.to_nat (N - 1) /\
    posts (trace w) = Z.to_nat N /\
    calls w = Z.to_nat N.
Proof.
  intros HN Hrl [r [Hr Htext]].
  rewrite (callGPTWithRetry_rounds key upstream um N (Z.to_nat (N - 1)));
    [ | intros i Hi; apply Hrl; lia | lia ].
  replace (Z.to_nat N - Z.to_nat (N - 1))%nat with 1%nat by lia.
  cbn [seq map].
  rewrite (attempt_loop_return _ _ _ _ _ _ _ _ (trim text))
    by (cbn [calls]; rewrite Hr; apply extract_reply_text; exact Htext).
  eexists. split; [reflexivity|]. cbn [trace calls app].
  rewrite waits_app, posts_app, waits_retry_rounds, posts_retry_rounds.
  cbn [waits posts]. rewrite app_nil_r.
  repeat split.
  - unfold doubling. rewrite length_map, length_seq. reflexivity.
  - lia.
  - lia.
Qed.

Lemma C1_witness :
  exists w,
    callGPTWithRetry [] (limited_then_ok 2 (lit " hi there ")) hello 3 1000 fresh
      = (Return (trim (lit " hi there ")), w) /\
    trace w = retry_rounds (build_request [] hello) (Z.to_nat (3 - 1)) 1 3 1000
                ++ [Post (build_request [] hello)] /\
    waits (trace w) = doubling 1000 (Z.to_nat (3 - 1)) /\
    List.length (waits (trace w)) = Z.to_nat (3 - 1) /\
    posts (trace w) = Z.to_nat 3 /\
    calls w = Z.to_nat 3.
Proof.
  apply (C1_backoff_until_success [] (limited_then_ok 2 (lit " hi there ")) hello
           3 1000 (lit " hi there ")).
  - lia.
  - intros i Hi. destruct i as [|[|i]]; [ | | lia ];
      (eexists; eexists; repeat split; reflexivity).
  - eexists. split; reflexivity.
Defined.

(** C2: with [maxAttempts = N >= 1], if the upstream signals rate limiting
    (HTTP 429) on every attempt, the call fails with the rate-limit error of
    the last attempt, propagated as it is, after exactly [N] attempts; the
    last attempt is followed by no wait and no further call. *)
Theorem C2_rate_limited_until_the_end
    (key : jsstring) (upstream : nat -> request -> settled) (um : value)
    (N d : Z) :
  1 <= N ->
  (forall i : nat, Z.of_nat i < N ->
     signals_rate_limit (upstream i (build_request key um))) ->
  exists e w,
    upstream (Z.to_nat (N - 1)) (build_request key um) = Rejected e /\
    rate_limited e = true /\
    callGPTWithRetry key upstream um N d fresh = (Rethrow e, w) /\
    trace w = retry_rounds (build_request key um) (Z.to_nat (N - 1)) 1 N d
                ++ [Post (build_request key um)] /\
    posts (trace w) = Z.to_nat N /\
    calls w = Z.to_nat N /\
    waits (trace w) = doubling d (Z.to_nat (N - 1)).
Proof.
  intros HN Hrl.
  destruct (rate_limit_signal_detected _ (Hrl (Z.to_nat (N - 1)) ltac:(lia)))
    as [e [He Hdet]].
  rewrite (callGPTWithRetry_rounds key upstream um N (Z.to_nat (N - 1)));
    [ | intros i Hi; apply Hrl; lia | lia ].
  replace (Z.to_nat N - Z.to_nat (N - 1))%nat with 1%nat by lia.
  cbn [seq map].
  rewrite (attempt_loop_rethrow _ _ _ _ _ _ _ _ e).
  - exists e. eexists. repeat split; try eassumption; cbn [trace calls].
    + rewrite posts_app, posts_retry_rounds. cbn [posts]. lia.
    + lia.
    + rewrite waits_app, waits_retry_rounds. cbn [waits]. apply app_nil_r.
  - cbn [calls]. rewrite He. reflexivity.
  - rewrite Hdet. cbn [andb]. apply Z.ltb_ge. lia.
Qed.

Lemma C2_witness :
  exists e w,
    always too_many_requests (Z.to_nat (3 - 1)) (build_request [] hello) = Rejected e /\
    rate_limited e = true /\
    callGPTWithRetry [] (always too_many_requests) hello 3 1000 fresh = (Rethrow e, w) /\
    trace w = retry_rounds (build_request [] hello) (Z.to_nat (3 - 1)) 1 3 1000
                ++ [Post (build_request [] hello)] /\
    posts (trace w) = Z.to_nat 3 /\
    calls w = Z.to_nat 3 /\
    waits (trace w) = doubling 1000 (Z.to_nat (3 - 1)).
Proof.
  apply (C2_rate_limited_until_the_end [] (always too_many_requests) hello 3 1000).
  - lia.
  - intros i _. eexists. eexists. repeat split; reflexivity.
Defined.

(** C3: with [maxAttempts > 1], a failure of attempt 1 that is not an
    explicit rate-limit signal (no HTTP response at all, or a status other
    than 429) is propagated at once: one attempt, no backoff wait, nothing
    after it. *)
Theorem C3_other_failure_propagates_at_once
    (key : jsstring) (upstream : nat -> request -> settled) (um : value)
    (retries d : Z) (e : error) :
  1 < retries ->
  fails_otherwise (upstream O (build_request key um)) e ->
  callGPTWithRetry key upstream um retries d fresh =
  (Rethrow e, mkWorld 1 [Post (build_request key um)]).
Proof.
  intros Hr Hfail.
  rewrite (callGPTWithRetry_rounds key upstream um retries O);
    [ | intros i Hi; lia | lia ].
  destruct (Z.to_nat retries - 0)%nat as [|n] eqn:Hn; [lia|].
  cbn [seq map].
  rewrite (attempt_loop_rethrow _ _ _ _ _ _ _ _ e).
  - reflexivity.
  - cbn [calls]. destruct Hfail as [-> _]. reflexivity.
  - rewrite (other_failure_not_retried _ _ Hfail). reflexivity.
Qed.

Lemma C3_witness :
  callGPTWithRetry [] (always (Rejected boom)) hello 3 1000 fresh =
  (Rethrow boom, mkWorld 1 [Post (build_request [] hello)]) /\
  callGPTWithRetry [] (always (Rejected unauthorized)) hello 3 1000 fresh =
  (Rethrow unauthorized, mkWorld 1 [Post (build_request [] hello)]).
Proof.
  split.
  - apply (C3_other_failure_propagates_at_once [] (always (Rejected boom)) hello
             3 1000 boom); [lia|].
    split; [reflexivity | left; reflexivity].
  - apply (C3_other_failure_propagates_at_once [] (always (Rejected unauthorized))
             hello 3 1000 unauthorized); [lia|].
    split; [reflexivity | right; eexists; split; [reflexivity | discriminate]].
Defined.

(** C4: for a non-empty [userMessage] and an upstream that succeeds on the
    first attempt, the call returns the trimmed message content of the first
    returned choice, after exactly one upstream call and no backoff wait.
    There is a first attempt as soon as [maxAttempts >= 1], the input
    constraint of the contract. *)
Theorem C4_success_on_first_attempt
    (key : jsstring) (upstream : nat -> request -> settled)
    (userMessage : jsstring) (retries d : Z) (text : jsstring) :
  userMessage <> [] ->
  1 <= retries ->
  succeeds_with (upstream O (build_request key (VStr userMessage))) text ->
  callGPTWithRetry key upstream (VStr userMessage) retries d fresh =
  (Return (trim text), mkWorld 1 [Post (build_request key (VStr userMessage))]).
Proof.
  intros _ Hr [r [Hres Htext]].
  rewrite (callGPTWithRetry_rounds key upstream _ retries O);
    [ | intros i Hi; lia | lia ].
  destruct (Z.to_nat retries - 0)%nat as [|n] eqn:Hn; [lia|].
  cbn [seq map].
  rewrite (attempt_loop_return _ _ _ _ _ _ _ _ (trim text)).
  - reflexivity.
  - cbn [calls]. rewrite Hres. apply extract_reply_text. exact Htext.
Qed.

Lemma C4_witness :
  callGPTWithRetry [] (always (ok (lit " hi there "))) (VStr (lit "hello"))
    3 1000 fresh =
  (Return (trim (lit " hi there ")),
   mkWorld 1 [Post (build_request [] (VStr (lit "hello")))]).
Proof.
  apply (C4_success_on_first_attempt [] (always (ok (lit " hi there ")))
           (lit "hello") 3 1000 (lit " hi there ")).
  - discriminate.
  - lia.
  - eexists. split; reflexivity.
Defined.

(** C7: a success response whose body is malformed (no choices, an empty
    choices sequence, or a first choice without message content) makes the
    call fail at once, whatever the attempt and however many attempts
    remain: the [TypeError] of the extraction is thrown to the caller, with
    no backoff wait and no further call after that response. *)
Theorem C7_malformed_body_fails_at_once
    (key : jsstring) (upstream : nat -> request -> settled) (um : value)
    (retries d : Z) (k : nat) (r : response) :
  Z.of_nat k + 1 <= retries ->
  (forall i, (i < k)%nat -> signals_rate_limit (upstream i (build_request key um))) ->
  upstream k (build_request key um) = Resolved r ->
  malformed (data r) ->
  exists e,
    extract_reply r = Throw e /\
    eresponse e = None /\
    callGPTWithRetry key upstream um retries d fresh =
    (Rethrow e,
     mkWorld (S k) (retry_rounds (build_request key um) k 1 retries d
                      ++ [Post (build_request key um)])) /\
    waits (retry_rounds (build_request key um) k 1 retries d
             ++ [Post (build_request key um)]) = doubling d k.
Proof.
  intros Hk Hrl Hres Hbad.
  destruct (extract_reply_malformed r Hbad) as [e He].
  exists e. split; [exact He|].
  pose proof (extract_reply_throw r e He) as Hnone.
  split; [exact Hnone|]. split.
  - rewrite (callGPTWithRetry_rounds key upstream um retries k);
      [ | exact Hrl | lia ].
    destruct (Z.to_nat retries - k)%nat as [|n] eqn:Hn; [lia|].
    cbn [seq map].
    rewrite (attempt_loop_rethrow _ _ _ _ _ _ _ _ e).
    + reflexivity.
    + cbn [calls]. rewrite Hres. exact He.
    + unfold rate_limited. rewrite Hnone. reflexivity.
  - rewrite waits_app, waits_retry_rounds. cbn [waits]. apply app_nil_r.
Qed.

Lemma C7_witness :
  (exists e,
     extract_reply (mkResponse 200 (VObj [])) = Throw e /\
     eresponse e = None /\
     callGPTWithRetry [] (limited_then_body 1 (VObj [])) hello 3 1000 fresh =
     (Rethrow e,
      mkWorld 2 (retry_rounds (build_request [] hello) 1 1 3 1000
                   ++ [Post (build_request [] hello)])) /\
     waits (retry_rounds (build_request [] hello) 1 1 3 1000
              ++ [Post (build_request [] hello)]) = doubling 1000 1) /\
  (exists e,
     extract_reply (mkResponse 200 (VObj [(lit "choices", VArr [])])) = Throw e /\
     eresponse e = None /\
     callGPTWithRetry [] (limited_then_body 0 (VObj [(lit "choices", VArr [])]))
       hello 3 1000 fresh =
     (Rethrow e,
      mkWorld 1 (retry_rounds (build_request [] hello) 0 1 3 1000
                   ++ [Post (build_request [] hello)])) /\
     waits (retry_rounds (build_request [] hello) 0 1 3 1000
              ++ [Post (build_request [] hello)]) = doubling 1000 0) /\
  (exists e,
     extract_reply
       (mkResponse 200
          (VObj [(lit "choices", VArr [VObj [(lit "message", VObj [])]])])) = Throw e /\
     eresponse e = None /\
     callGPTWithRetry []
       (limited_then_body 0
          (VObj [(lit "choices", VArr [VObj [(lit "message", VObj [])]])]))
       hello 3 1000 fresh =
     (Rethrow e,
      mkWorld 1 (retry_rounds (build_request [] hello) 0 1 3 1000
                   ++ [Post (build_request [] hello)])) /\
     waits (retry_rounds (build_request [] hello) 0 1 3 1000
              ++ [Post (build_request [] hello)]) = doubling 1000 0).
Proof.
  repeat split.
  - apply (C7_malformed_body_fails_at_once [] (limited_then_body 1 (VObj [])) hello
             3 1000 1 (mkResponse 200 (VObj []))).
    + lia.
    + intros i Hi. destruct i as [|i]; [ | lia ].
      eexists. eexists. repeat split; reflexivity.
    + reflexivity.
    + apply no_choices. reflexivity.
  - apply (C7_malformed_body_fails_at_once []
             (limited_then_body 0 (VObj [(lit "choices", VArr [])])) hello
             3 1000 0 (mkResponse 200 (VObj [(lit "choices", VArr [])]))).
    + lia.
    + intros i Hi. lia.
    + reflexivity.
    + apply empty_choices. reflexivity.
  - apply (C7_malformed_body_fails_at_once []
             (limited_then_body 0
                (VObj [(lit "choices", VArr [VObj [(lit "message", VObj [])]])]))
             hello 3 1000 0
             (mkResponse 200
                (VObj [(lit "choices", VArr [VObj [(lit "message", VObj [])]])]))).
    + lia.
    + intros i Hi. lia.
    + reflexivity.
    + eapply no_content; reflexivity.
Defined.

(** ** The retry state machine *)

Import Machine.

Ltac machine_simpl :=
  cbn [run step pc attempt delay effects andb];
  unfold emit; cbn [calls trace].

Lemma run_terminal key upstream um retries n s :
  step key upstream um retries s = None -> run key upstream um retries n s = s.
Proof. intros H. destruct n; cbn [run]; [reflexivity | rewrite H; reflexivity]. Qed.

Lemma run_add key upstream um retries n : forall m s,
  run key upstream um retries (n + m) s =
  run key upstream um retries m (run key upstream um retries n s).
Proof.
  induction n as [|n IH]; intros m s; [reflexivity|].
  cbn [Nat.add run].
  destruct (step key upstream um retries s) as [s'|] eqn:Hs; [apply IH|].
  symmetry. apply run_terminal. exact Hs.
Qed.

Lemma run_reachable key upstream um retries d n : forall s,
  reachable key upstream um retries d s ->
  reachable key upstream um retries d (run key upstream um retries n s).
Proof.
  induction n as [|n IH]; intros s Hs; [exact Hs|].
  cbn [run]. destruct (step key upstream um retries s) as [s'|] eqn:Hstep; [|exact Hs].
  apply IH. eapply reach_step; eassumption.
Qed.

(** The reachable states are those some number of steps away from the
    start. *)
Lemma reachable_run key upstream um retries d s :
  reachable key upstream um retries d s ->
  exists n, run key upstream um retries n (start d) = s.
Proof.
  induction 1 as [|s s' _ [n Hn] Hstep].
  - exists O. reflexivity.
  - exists (n + 1)%nat. rewrite run_add, Hn. cbn [run]. rewrite Hstep. reflexivity.
Qed.

Lemma step_exited key upstream um retries s :
  step key upstream um retries s = None <-> exists x, pc s = Exited x.
Proof.
  unfold step. split.
  - destruct (pc s) eqn:Hpc.
    + destruct (attempt s <=? retries); discriminate.
    + destruct (try_completion _); [discriminate|].
      destruct (rate_limited e && (attempt s <? retries)); discriminate.
    + discriminate.
    + intros _. eexists. reflexivity.
  - intros [x ->]. reflexivity.
Qed.

(** Two runs from the same state that have both exited have exited in the
    same state. *)
Lemma run_exit_unique key upstream um retries s n m x y :
  pc (run key upstream um retries n s) = Exited x ->
  pc (run key upstream um retries m s) = Exited y ->
  run key upstream um retries n s = run key upstream um retries m s.
Proof.
  intros Hn Hm.
  assert (Tn : step key upstream um retries (run key upstream um retries n s) = None)
    by (apply step_exited; eexists; exact Hn).
  assert (Tm : step key upstream um retries (run key upstream um retries m s) = None)
    by (apply step_exited; eexists; exact Hm).
  destruct (Nat.le_ge_cases n m) as [Hle | Hle].
  - replace m with (n + (m - n))%nat by lia.
    rewrite run_add. symmetry. apply run_terminal. exact Tn.
  - replace n with (m + (n - m))%nat by lia.
    rewrite run_add. apply run_terminal. exact Tm.
Qed.

(** The machine computes what the loop computes: from the loop test with
    [attempt = a], it exits the way [attempt_loop] does on the remaining
    values of [attempt], with the same effects. *)
Lemma run_attempt_loop key upstream um retries k : forall a d w,
  0 <= a ->
  k = Z.to_nat (retries + 1 - a) ->
  exists n a' d',
    run key upstream um retries n (mkState a d LoopTest w) =
    mkState a' d'
      (Exited (fst (attempt_loop key upstream
                      (map Z.of_nat (seq (Z.to_nat a) k)) um retries d w)))
      (snd (attempt_loop key upstream
              (map Z.of_nat (seq (Z.to_nat a) k)) um retries d w)).
Proof.
  induction k as [|k IH]; intros a d w Ha Hk.
  - exists 1%nat, a, d. machine_simpl. cbn [seq map].
    replace (a <=? retries) with false by (symmetry; apply Z.leb_gt; lia).
    reflexivity.
  - cbn [seq map]. rewrite Z2Nat.id by exact Ha.
    assert (Hle : (a <=? retries) = true) by (apply Z.leb_le; lia).
    destruct (try_completion (upstream (calls w) (build_request key um)))
      as [reply|e] eqn:Hc.
    + exists 2%nat, a, d. machine_simpl.
      rewrite Hle. machine_simpl. rewrite Hc.
      rewrite (attempt_loop_return _ _ _ _ _ _ _ _ reply Hc). reflexivity.
    + destruct (rate_limited e && (a <? retries)) eqn:Hretry.
      * apply andb_prop in Hretry. destruct Hretry as [Hrl Hlt].
        apply Z.ltb_lt in Hlt.
        rewrite (attempt_loop_retry _ _ _ _ _ _ _ _ e Hc Hrl Hlt).
        destruct (IH (a + 1) (d * 2)
                    (mkWorld (S (calls w))
                       (trace w ++ [Post (build_request key um);
                                    Warn a retries d; Timeout d])))
          as [n [a' [d' Hrun]]]; [lia | lia |].
        exists (3 + n)%nat, a', d'.
        rewrite run_add. machine_simpl.
        rewrite Hle. machine_simpl. rewrite Hc.
        rewrite Hrl. apply Z.ltb_lt in Hlt. rewrite Hlt. machine_simpl.
        replace (Z.to_nat (a + 1)) with (S (Z.to_nat a)) in Hrun by lia.
        rewrite <- Hrun. rewrite <- !app_assoc. reflexivity.
      * exists 2%nat, a, d. machine_simpl.
        rewrite Hle. machine_simpl. rewrite Hc.
        rewrite Hretry.
        rewrite (attempt_loop_rethrow _ _ _ _ _ _ _ _ e Hc Hretry). reflexivity.
Qed.

(** Run to completion, the machine of one invocation exits the way
    [callGPTWithRetry] does, with the same effects. *)
Lemma machine_refines_callGPTWithRetry key upstream um retries d :
  exists n a' d',
    run key upstream um retries n (start d) =
    mkState a' d'
      (Exited (fst (callGPTWithRetry key upstream um retries d fresh)))
      (snd (callGPTWithRetry key upstream um retries d fresh)).
Proof.
  unfold callGPTWithRetry, attempt_range, start.
  destruct (run_attempt_loop key upstream um retries (Z.to_nat retries) 1 d fresh)
    as [n [a' [d' H]]]; [lia | f_equal; lia |].
  exists n, a', d'. exact H.
Qed.

(** Whenever the machine has exited, it has exited as [callGPTWithRetry]. *)
Lemma exited_as_callGPTWithRetry key upstream um retries d n x :
  pc (run key upstream um retries n (start d)) = Exited x ->
  (x, effects (run key upstream um retries n (start d))) =
  callGPTWithRetry key upstream um retries d fresh.
Proof.
  intros Hx.
  destruct (machine_refines_callGPTWithRetry key upstream um retries d)
    as [m [a' [d' Hm]]].
  assert (Heq : run key upstream um retries n (start d) =
                run key upstream um retries m (start d)).
  { eapply run_exit_unique; [exact Hx | rewrite Hm; reflexivity]. }
  rewrite Heq in Hx |- *. rewrite Hm in Hx |- *. cbn [pc effects] in *.
  injection Hx as <-.
  destruct (callGPTWithRetry key upstream um retries d fresh). reflexivity.
Qed.

Lemma doubling_snoc d k : doubling d (S k) = doubling d k ++ [d * 2 ^ Z.of_nat k].
Proof.
  unfold doubling. rewrite seq_S, map_app. reflexivity.
Qed.

Section Invariant.

Variable key : jsstring.
Variable upstream : nat -> request -> settled.
Variable um : value.
Variable retries : Z.
Variable d : Z.
Hypothesis retries_pos : 1 <= retries.

Local Abbreviation req := (build_request key um).
Local Abbreviation mstep := (step key upstream um retries).

Lemma invariant_start : retry_invariant retries d (start d).
Proof.
  unfold retry_invariant, start. cbn [attempt delay pc effects fresh trace calls].
  repeat split; try lia; try discriminate.
Qed.

Lemma invariant_step s s' :
  retry_invariant retries d s -> mstep s = Some s' -> retry_invariant retries d s'.
Proof.
  unfold retry_invariant.
  intros (Hrange & Hdelay & Hexc & Htimer & Hposts & Hcalls & Hwaits) Hstep.
  unfold step in Hstep. destruct (pc s) eqn:Hpc.
  - (* the loop test *)
    replace (attempt s <=? retries) with true in Hstep
      by (symmetry; apply Z.leb_le; lia).
    injection Hstep as <-. cbn [attempt delay pc effects emit trace calls].
    rewrite posts_app, waits_app, Hposts, Hwaits. cbn [posts waits].
    rewrite app_nil_r.
    repeat split; try lia; try discriminate; auto.
  - (* the call has settled *)
    destruct (try_completion _) as [reply|e].
    + injection Hstep as <-. cbn [attempt delay pc effects emit trace calls].
      repeat split; try lia; try discriminate; auto.
    + destruct (rate_limited e && (attempt s <? retries)) eqn:Hretry.
      * apply andb_prop in Hretry. destruct Hretry as [_ Hlt].
        apply Z.ltb_lt in Hlt.
        injection Hstep as <-. cbn [attempt delay pc effects emit trace calls].
        rewrite !posts_app, !waits_app, Hposts, Hwaits. cbn [posts waits].
        rewrite !app_nil_r, !Nat.add_0_r.
        repeat split; try lia; try discriminate; auto.
        replace (Z.to_nat (attempt s)) with (S (Z.to_nat (attempt s - 1))) by lia.
        rewrite doubling_snoc, Hdelay, Z2Nat.id by lia. reflexivity.
      * injection Hstep as <-. cbn [attempt delay pc effects emit trace calls].
        repeat split; try lia; try discriminate; auto.
  - (* the timer has fired *)
    specialize (Htimer eq_refl).
    injection Hstep as <-. cbn [attempt delay pc effects emit trace calls].
    replace (attempt s + 1 - 1) with (attempt s) by lia.
    repeat split; try lia; try discriminate; auto.
    rewrite Hdelay.
    replace (attempt s) with (Z.succ (attempt s - 1)) at 2 by lia.
    rewrite Z.pow_succ_r by lia. lia.
  - discriminate.
Qed.

Lemma invariant_reachable s :
  reachable key upstream um retries d s -> retry_invariant retries d s.
Proof.
  induction 1 as [|s s' _ IH Hstep].
  - apply invariant_start.
  - eapply invariant_step; eassumption.
Qed.

End Invariant.

Example machine_two_retries_then_reply :
  run [] (limited_then_ok 2 (lit "  hi there ")) hello 3 8 (start 1000) =
  mkState 3 4000 (Exited (Return (lit "hi there")))
    (mkWorld 3 [ Post (build_request [] hello); Warn 1 3 1000; Timeout 1000;
                 Post (build_request [] hello); Warn 2 3 2000; Timeout 2000;
                 Post (build_request [] hello) ]).
Proof. vm_compute. reflexivity. Qed.

(** C5: in every state an invocation with [maxAttempts >= 1] goes through,
    the attempt counter is within [1..maxAttempts] (and so is the number of
    calls issued), and the delay is the initial one doubled once per
    retried attempt.  A retryable failure (rate-limited, attempts
    remaining) leads through one wait of the current delay back to the
    loop test with the counter incremented and the delay exactly doubled;
    any other failure, and any failure of the final attempt, exits at once
    with that error, and an exited invocation takes no further step. *)
Theorem C5_retry_state_invariant
    (key : jsstring) (upstream : nat -> request -> settled) (um : value)
    (retries d : Z) (s : RetryState) :
  1 <= retries ->
  reachable key upstream um retries d s ->
  (1 <= attempt s <= retries /\
   (posts (trace (effects s)) <= Z.to_nat retries)%nat /\
   delay s = d * 2 ^ (attempt s - 1) /\
   retry_invariant retries d s) /\
  (forall e,
     pc s = AwaitPost ->
     try_completion (upstream (calls (effects s)) (build_request key um)) = Throw e ->
     rate_limited e = true -> attempt s < retries ->
     exists s1 s2,
       step key upstream um retries s = Some s1 /\
       step key upstream um retries s1 = Some s2 /\
       pc s1 = AwaitTimer /\
       waits (trace (effects s1)) = waits (trace (effects s)) ++ [delay s] /\
       pc s2 = LoopTest /\
       attempt s2 = attempt s + 1 /\
       delay s2 = delay s * 2) /\
  (forall e,
     pc s = AwaitPost ->
     try_completion (upstream (calls (effects s)) (build_request key um)) = Throw e ->
     rate_limited e = false \/ attempt s = retries ->
     exists s',
       step key upstream um retries s = Some s' /\
       pc s' = Exited (Rethrow e) /\
       trace (effects s') = trace (effects s) /\
       forall n, run key upstream um retries n s' = s') /\
  (forall x, pc s = Exited x ->
     forall n, run key upstream um retries n s = s).
Proof.
  intros Hpos Hreach.
  pose proof (invariant_reachable key upstream um retries d Hpos s Hreach) as Hinv.
  assert (Hinv' := Hinv).
  destruct Hinv' as (Hrange & Hdelay & _ & _ & Hposts & _).
  split; [ | split; [ | split ] ].
  - split; [exact Hrange|]. split; [|split; [exact Hdelay | exact Hinv]].
    rewrite Hposts. destruct (pc s); lia.
  - intros e Hpc Hc Hrl Hlt.
    eexists. eexists. unfold step at 1. rewrite Hpc, Hc, Hrl.
    replace (attempt s <? retries) with true by (symmetry; apply Z.ltb_lt; lia).
    cbn [andb]. split; [reflexivity|].
    unfold step. cbn [pc attempt delay effects emit trace calls].
    split; [reflexivity|].
    rewrite !waits_app. cbn [waits]. rewrite app_nil_r.
    repeat (split; [reflexivity|]). reflexivity.
  - intros e Hpc Hc Hno.
    eexists. unfold step at 1. rewrite Hpc, Hc.
    replace (rate_limited e && (attempt s <? retries)) with false.
    + split; [reflexivity|]. cbn [pc effects trace].
      split; [reflexivity|]. split; [reflexivity|].
      intros n. apply run_terminal. reflexivity.
    + symmetry. destruct Hno as [-> | ->]; [reflexivity|].
      rewrite Z.ltb_irrefl. apply andb_false_r.
  - intros x Hpc n. apply run_terminal. apply step_exited. eexists. exact Hpc.
Qed.

Lemma C5_witness :
  1 <= attempt (run [] (limited_then_ok 2 (lit "hi")) hello 3 4 (start 1000)) <= 3 /\
  (posts (trace (effects (run [] (limited_then_ok 2 (lit "hi")) hello 3 4 (start 1000))))
   <= Z.to_nat 3)%nat /\
  delay (run [] (limited_then_ok 2 (lit "hi")) hello 3 4 (start 1000)) =
    1000 * 2 ^ (attempt (run [] (limited_then_ok 2 (lit "hi")) hello 3 4 (start 1000)) - 1) /\
  retry_invariant 3 1000 (run [] (limited_then_ok 2 (lit "hi")) hello 3 4 (start 1000)).
Proof.
  refine (proj1 (C5_retry_state_invariant [] (limited_then_ok 2 (lit "hi")) hello
                   3 1000 (run [] (limited_then_ok 2 (lit "hi")) hello 3 4 (start 1000))
                   _ _)).
  - lia.
  - apply run_reachable. apply reach_start.
Defined.

(** C6: with [maxAttempts >= 1] the "attempts exhausted" error of line 80
    is never thrown.  No state of an invocation has exited that way, and
    neither does [callGPTWithRetry]; every iteration that starts at the loop
    test issues the call and then returns the reply, throws, or goes on to
    the wait before the next attempt, the last only with attempts
    remaining, so the final attempt returns or throws. *)
Theorem C6_fallback_unreachable
    (key : jsstring) (upstream : nat -> request -> settled) (um : value)
    (retries d : Z) :
  1 <= retries ->
  fst (callGPTWithRetry key upstream um retries d fresh) <> Exceeded /\
  (forall s, reachable key upstream um retries d s -> pc s <> Exited Exceeded) /\
  (forall s,
     reachable key upstream um retries d s -> pc s = LoopTest ->
     exists s1 s2,
       step key upstream um retries s = Some s1 /\ pc s1 = AwaitPost /\
       step key upstream um retries s1 = Some s2 /\
       ((exists reply, pc s2 = Exited (Return reply)) \/
        (exists e, pc s2 = Exited (Rethrow e)) \/
        (pc s2 = AwaitTimer /\ attempt s < retries))).
Proof.
  intros Hpos.
  assert (Hno : forall s, reachable key upstream um retries d s ->
                          pc s <> Exited Exceeded).
  { intros s Hs.
    destruct (invariant_reachable key upstream um retries d Hpos s Hs)
      as (_ & _ & H & _). exact H. }
  split; [ | split; [exact Hno | ] ].
  - destruct (machine_refines_callGPTWithRetry key upstream um retries d)
      as [n [a' [d' Hrun]]].
    intros Hx.
    apply (Hno (run key upstream um retries n (start d))).
    + apply run_reachable. apply reach_start.
    + rewrite Hrun. cbn [pc]. rewrite Hx. reflexivity.
  - intros s Hs Hpc.
    destruct (invariant_reachable key upstream um retries d Hpos s Hs)
      as (Hrange & _).
    unfold step at 1. rewrite Hpc.
    replace (attempt s <=? retries) with true by (symmetry; apply Z.leb_le; lia).
    exists (mkState (attempt s) (delay s) AwaitPost
              (emit (Post (build_request key um)) (effects s))).
    unfold step. cbn [pc attempt delay effects emit trace calls].
    destruct (try_completion _) as [reply|e].
    + eexists. repeat (split; [reflexivity|]). left. eexists. reflexivity.
    + destruct (rate_limited e && (attempt s <? retries)) eqn:Hretry.
      * eexists. repeat (split; [reflexivity|]).
        right. right. split; [reflexivity|].
        apply andb_prop in Hretry. destruct Hretry as [_ Hlt].
        apply Z.ltb_lt. exact Hlt.
      * eexists. repeat (split; [reflexivity|]).
        right. left. eexists. reflexivity.
Qed.

Lemma C6_witness :
  fst (callGPTWithRetry [] (always too_many_requests) hello 3 1000 fresh) <> Exceeded.
Proof.
  refine (proj1 (C6_fallback_unreachable [] (always too_many_requests) hello 3 1000 _)).
  lia.
Defined.

(** The loop sees of the upstream only how its own calls settle. *)
Lemma attempt_loop_ext key u u' um retries attempts : forall d w,
  (forall i, u' i (build_request key um) = u i (build_request key um)) ->
  attempt_loop key u' attempts um retries d w =
  attempt_loop key u attempts um retries d w.
Proof.
  induction attempts as [|a later IH]; intros d w Hsame; [reflexivity|].
  cbn [attempt_loop]. unfold mbind, try_block, axios_post, mbind, ret.
  rewrite Hsame.
  destruct (try_completion (u (calls w) (build_request key um))) as [reply|e];
    [reflexivity|].
  destruct (rate_limited e && (a <? retries)); [|reflexivity].
  unfold console_warn, setTimeout. apply IH. exact Hsame.
Qed.


(** One invocation that succeeds at once and one that is rate-limited until
    its attempts are exhausted, resumed in turn. *)
Example isolated_success_and_exhaustion :
  let i1 := mkInvocation (always (ok (lit "hi there"))) hello 3 in
  let i2 := mkInvocation (always too_many_requests) hello 3 in
  let final := interleave [] i1 i2
                 [true; false; false; true; false; false; false; false; false; false]
                 (start 1000, start 500) in
  pc (fst final) = Exited (Return (lit "hi there")) /\
  calls (effects (fst final)) = 1%nat /\
  waits (trace (effects (fst final))) = [] /\
  (exists e, pc (snd final) = Exited (Rethrow e) /\ rate_limited e = true) /\
  calls (effects (snd final)) = 3%nat /\
  waits (trace (effects (snd final))) = [500; 1000].
Proof.
  vm_compute. repeat split. eexists. split; reflexivity.
Qed.
(** ** Calls in flight in one process *)

Lemma own_events_app i h1 h2 :
  Process.own_events i (h1 ++ h2) = Process.own_events i h1 ++ Process.own_events i h2.
Proof. unfold Process.own_events. rewrite filter_app, map_app. reflexivity. Qed.

Lemma count_posts_app t1 t2 :
  Process.count_posts (t1 ++ t2) = (Process.count_posts t1 + Process.count_posts t2)%nat.
Proof.
  induction t1 as [|e t1 IH]; [reflexivity|].
  destruct e; cbn [app Process.count_posts]; rewrite IH; reflexivity.
Qed.

Lemma own_events_one i j e :
  Process.own_events i [(j, e)] = if Nat.eqb j i then [e] else [].
Proof. unfold Process.own_events. cbn. destruct (Nat.eqb j i); reflexivity. Qed.

Ltac own_simpl :=
  unfold emit; cbn [trace calls];
  rewrite ?own_events_app, ?own_events_one; cbn [Nat.eqb]; rewrite ?app_nil_r.

Section Simulation.

Variable key : jsstring.
Variable provider : list (nat * event) -> nat -> request -> settled.
Variable u : nat -> nat -> request -> settled.
Hypothesis provider_independent : Process.independent provider u.

Lemma resume_calls_agree (i : invocation) (s : RetryState) :
  Process.calls_agree s -> Process.calls_agree (Machine.resume key i s).
Proof.
  unfold Process.calls_agree, Machine.resume, step. destruct s as [a d c w].
  cbn [pc attempt delay effects].
  destruct c; cbn [pc effects]; intros H.
  - destruct (a <=? inv_retries i); cbn [pc effects emit trace calls].
    + rewrite count_posts_app. cbn [Process.count_posts]. lia.
    + lia.
  - destruct (try_completion _) as [reply|e]; cbn [pc effects trace calls].
    + lia.
    + destruct (rate_limited e && (a <? inv_retries i));
        cbn [pc effects emit trace calls].
      * rewrite !count_posts_app. cbn [Process.count_posts]. lia.
      * lia.
  - cbn [pc effects]. lia.
  - exact H.
Qed.

Local Ltac process_simpl :=
  cbn [Process.resume Process.number_of Process.resolve Process.assign Process.suspend
       Process.record Process.activation_of Process.in_flight Process.globals
       Process.history Process.locals Process.suspended Process.binding Process.rebind
       Process.replace_nth nth_error String.eqb Ascii.eqb Bool.eqb
       pc attempt delay effects andb].

Local Ltac resume_cases Hown r :=
  match goal with
  | c : control |- _ =>
      destruct c; process_simpl;
      [ destruct (_ <=? r); process_simpl;
        [ eexists; split; [reflexivity|]; own_simpl; rewrite Hown; split; reflexivity
        | eexists; split; [reflexivity|]; split; [exact Hown | reflexivity] ]
      | idtac
      | eexists; split; [reflexivity|]; split; [exact Hown | reflexivity]
      | eexists; split; [reflexivity|]; split; [exact Hown | reflexivity] ]
  end.

(** Resuming call 0 moves it as the retry machine moves, against the
    behaviour the provider shows to call 0, and leaves the module scope
    and call 1 as they were. *)
Lemma resume_first g um1 r1 um2 r2 s1 s2 h :
  Process.own_events 0 h = trace (effects s1) ->
  Process.calls_agree s1 ->
  exists h',
    Process.resume key provider 0
      (Process.mkProcess g
         [Process.activation_of um1 r1 s1; Process.activation_of um2 r2 s2] h) =
    Process.mkProcess g
      [Process.activation_of um1 r1 (Machine.resume key (mkInvocation (u 0%nat) um1 r1) s1);
       Process.activation_of um2 r2 s2] h' /\
    Process.own_events 0 h' =
      trace (effects (Machine.resume key (mkInvocation (u 0%nat) um1 r1) s1)) /\
    Process.own_events 1 h' = Process.own_events 1 h.
Proof.
  intros Hown Hagree.
  unfold Process.calls_agree, Machine.resume, step in *. destruct s1 as [a d c w].
  cbn [pc attempt delay effects inv_upstream inv_userMessage inv_retries] in *.
  resume_cases Hown r1.
  rewrite provider_independent, Hown.
  replace (Nat.pred (Process.count_posts (trace w))) with (calls w) by lia.
  destruct (try_completion (u 0%nat (calls w) (build_request key um1))) as [reply|e];
    process_simpl.
  - eexists. split; [reflexivity|]. split; [exact Hown | reflexivity].
  - destruct (rate_limited e); process_simpl.
    + destruct (a <? r1); process_simpl.
      * eexists. split; [reflexivity|]. own_simpl.
        rewrite Hown, <- ?app_assoc. split; reflexivity.
      * eexists. split; [reflexivity|]. split; [exact Hown | reflexivity].
    + eexists. split; [reflexivity|]. split; [exact Hown | reflexivity].
Qed.

(** The same for call 1. *)
Lemma resume_second g um1 r1 um2 r2 s1 s2 h :
  Process.own_events 1 h = trace (effects s2) ->
  Process.calls_agree s2 ->
  exists h',
    Process.resume key provider 1
      (Process.mkProcess g
         [Process.activation_of um1 r1 s1; Process.activation_of um2 r2 s2] h) =
    Process.mkProcess g
      [Process.activation_of um1 r1 s1;
       Process.activation_of um2 r2 (Machine.resume key (mkInvocation (u 1%nat) um2 r2) s2)]
      h' /\
    Process.own_events 1 h' =
      trace (effects (Machine.resume key (mkInvocation (u 1%nat) um2 r2) s2)) /\
    Process.own_events 0 h' = Process.own_events 0 h.
Proof.
  intros Hown Hagree.
  unfold Process.calls_agree, Machine.resume, step in *. destruct s2 as [a d c w].
  cbn [pc attempt delay effects inv_upstream inv_userMessage inv_retries] in *.
  resume_cases Hown r2.
  rewrite provider_independent, Hown.
  replace (Nat.pred (Process.count_posts (trace w))) with (calls w) by lia.
  destruct (try_completion (u 1%nat (calls w) (build_request key um2))) as [reply|e];
    process_simpl.
  - eexists. split; [reflexivity|]. split; [exact Hown | reflexivity].
  - destruct (rate_limited e); process_simpl.
    + destruct (a <? r2); process_simpl.
      * eexists. split; [reflexivity|]. own_simpl.
        rewrite Hown, <- ?app_assoc. split; reflexivity.
      * eexists. split; [reflexivity|]. split; [exact Hown | reflexivity].
    + eexists. split; [reflexivity|]. split; [exact Hown | reflexivity].
Qed.

Lemma run_resume (i : invocation) n s :
  run key (inv_upstream i) (inv_userMessage i) (inv_retries i) (S n) s =
  run key (inv_upstream i) (inv_userMessage i) (inv_retries i) n (Machine.resume key i s).
Proof.
  cbn [run]. unfold Machine.resume.
  destruct (step key (inv_upstream i) (inv_userMessage i) (inv_retries i) s) eqn:Hs;
    [reflexivity|].
  symmetry. apply run_terminal. exact Hs.
Qed.

(** Under every schedule each of the two calls is where the retry machine
    is, run on its own for as many steps as the call was resumed. *)
Lemma concurrently_simulates g um1 r1 um2 r2 schedule : forall s1 s2 h,
  Process.own_events 0 h = trace (effects s1) ->
  Process.own_events 1 h = trace (effects s2) ->
  Process.calls_agree s1 ->
  Process.calls_agree s2 ->
  exists h',
    Process.concurrently key provider schedule
      (Process.mkProcess g
         [Process.activation_of um1 r1 s1; Process.activation_of um2 r2 s2] h) =
    Process.mkProcess g
      [Process.activation_of um1 r1
         (run key (u 0%nat) um1 r1 (resumes true schedule) s1);
       Process.activation_of um2 r2
         (run key (u 1%nat) um2 r2 (resumes false schedule) s2)] h' /\
    Process.own_events 0 h' =
      trace (effects (run key (u 0%nat) um1 r1 (resumes true schedule) s1)) /\
    Process.own_events 1 h' =
      trace (effects (run key (u 1%nat) um2 r2 (resumes false schedule) s2)) /\
    Process.calls_agree (run key (u 0%nat) um1 r1 (resumes true schedule) s1) /\
    Process.calls_agree (run key (u 1%nat) um2 r2 (resumes false schedule) s2).
Proof.
  unfold resumes.
  induction schedule as [|b schedule IH]; intros s1 s2 h H1 H2 A1 A2.
  - exists h. cbn [Process.concurrently count_occ run]. split; [reflexivity|].
    repeat (split; [assumption|]). assumption.
  - destruct b; cbn [Process.concurrently].
    + destruct (resume_first g um1 r1 um2 r2 s1 s2 h H1 A1) as [h1 [-> [Hown Hother]]].
      rewrite count_occ_cons_eq by reflexivity.
      rewrite count_occ_cons_neq by discriminate.
      rewrite (run_resume (mkInvocation (u 0%nat) um1 r1)).
      apply IH.
      * exact Hown.
      * rewrite Hother. exact H2.
      * apply resume_calls_agree. exact A1.
      * exact A2.
    + destruct (resume_second g um1 r1 um2 r2 s1 s2 h H2 A2) as [h1 [-> [Hown Hother]]].
      rewrite count_occ_cons_neq by discriminate.
      rewrite count_occ_cons_eq by reflexivity.
      rewrite (run_resume (mkInvocation (u 1%nat) um2 r2)).
      apply IH.
      * rewrite Hother. exact H1.
      * exact Hown.
      * exact A1.
      * apply resume_calls_agree. exact A2.
Qed.

End Simulation.

Import ProcessMocks.

(** C9: two calls of [callGPTWithRetry] in flight in one process, against a
    provider that treats them independently, do not affect each other.
    Under every schedule the module scope is as it was, and the attempt
    counter, the delay and the place of suspension of each call are those
    of the retry machine run on that call's own arguments and own upstream
    behaviour for as many steps as the call was resumed; what each call has
    done is what that machine has done.  Once a call has exited, its result,
    its number of upstream calls and its effects are those of
    [callGPTWithRetry] run alone. *)
Theorem C9_calls_in_flight_are_isolated
    (key : jsstring)
    (provider : list (nat * event) -> nat -> request -> settled)
    (u : nat -> nat -> request -> settled)
    (g : Process.scope) (um1 : value) (r1 d1 : Z) (um2 : value) (r2 d2 : Z)
    (schedule : list bool) :
  Process.independent provider u ->
  exists h,
    Process.concurrently key provider schedule
      (Process.two_calls g um1 r1 d1 um2 r2 d2) =
    Process.mkProcess g
      [ Process.activation_of um1 r1
          (run key (u 0%nat) um1 r1 (resumes true schedule) (start d1));
        Process.activation_of um2 r2
          (run key (u 1%nat) um2 r2 (resumes false schedule) (start d2)) ] h /\
    Process.own_events 0 h =
      trace (effects (run key (u 0%nat) um1 r1 (resumes true schedule) (start d1))) /\
    Process.own_events 1 h =
      trace (effects (run key (u 1%nat) um2 r2 (resumes false schedule) (start d2))) /\
    (forall x,
       pc (run key (u 0%nat) um1 r1 (resumes true schedule) (start d1)) = Exited x ->
       (x, mkWorld (Process.count_posts (Process.own_events 0 h)) (Process.own_events 0 h)) =
       callGPTWithRetry key (u 0%nat) um1 r1 d1 fresh) /\
    (forall x,
       pc (run key (u 1%nat) um2 r2 (resumes false schedule) (start d2)) = Exited x ->
       (x, mkWorld (Process.count_posts (Process.own_events 1 h)) (Process.own_events 1 h)) =
       callGPTWithRetry key (u 1%nat) um2 r2 d2 fresh).
Proof.
  intros Hind.
  destruct (concurrently_simulates key provider u Hind g um1 r1 um2 r2 schedule
              (start d1) (start d2) [])
    as [h [Hp [H1 [H2 [A1 A2]]]]]; try reflexivity.
  exists h. split; [exact Hp|]. split; [exact H1|]. split; [exact H2|].
  split; intros x Hx.
  - rewrite <- (exited_as_callGPTWithRetry key (u 0%nat) um1 r1 d1 _ x Hx).
    unfold Process.calls_agree in A1. rewrite Hx in A1.
    rewrite H1, A1, Nat.add_0_r.
    destruct (effects (run key (u 0%nat) um1 r1 (resumes true schedule) (start d1))).
    reflexivity.
  - rewrite <- (exited_as_callGPTWithRetry key (u 1%nat) um2 r2 d2 _ x Hx).
    unfold Process.calls_agree in A2. rewrite Hx in A2.
    rewrite H2, A2, Nat.add_0_r.
    destruct (effects (run key (u 1%nat) um2 r2 (resumes false schedule) (start d2))).
    reflexivity.
Qed.

Lemma C9_witness :
  exists h,
    Process.concurrently [] (serving answered_and_limited)
      [true; false; false; true; false; false; false; false; false; false]
      (Process.two_calls [] hello 3 1000 hello 3 500) =
    Process.mkProcess []
      [ Process.activation_of hello 3
          (run [] (answered_and_limited 0%nat) hello 3
             (resumes true [true; false; false; true; false; false; false; false; false; false])
             (start 1000));
        Process.activation_of hello 3
          (run [] (answered_and_limited 1%nat) hello 3
             (resumes false [true; false; false; true; false; false; false; false; false; false])
             (start 500)) ] h /\
    Process.own_events 0 h =
      trace (effects (run [] (answered_and_limited 0%nat) hello 3
                        (resumes true [true; false; false; true; false; false; false; false;
                                       false; false]) (start 1000))) /\
    Process.own_events 1 h =
      trace (effects (run [] (answered_and_limited 1%nat) hello 3
                        (resumes false [true; false; false; true; false; false; false; false;
                                        false; false]) (start 500))) /\
    (forall x,
       pc (run [] (answered_and_limited 0%nat) hello 3
             (resumes true [true; false; false; true; false; false; false; false; false; false])
             (start 1000)) = Exited x ->
       (x, mkWorld (Process.count_posts (Process.own_events 0 h)) (Process.own_events 0 h)) =
       callGPTWithRetry [] (answered_and_limited 0%nat) hello 3 1000 fresh) /\
    (forall x,
       pc (run [] (answered_and_limited 1%nat) hello 3
             (resumes false [true; false; false; true; false; false; false; false; false; false])
             (start 500)) = Exited x ->
       (x, mkWorld (Process.count_posts (Process.own_events 1 h)) (Process.own_events 1 h)) =
       callGPTWithRetry [] (answered_and_limited 1%nat) hello 3 500 fresh).
Proof.
  apply (C9_calls_in_flight_are_isolated [] (serving answered_and_limited)
           answered_and_limited [] hello 3 1000 hello 3 500).
  intros h i req. reflexivity.
Defined.

(** One call answered at once and one rate-limited until its attempts are
    exhausted, in one process: each ends as it does alone. *)
Example answered_and_limited_in_one_process :
  Process.in_flight
    (Process.concurrently [] (serving answered_and_limited)
       [true; false; false; true; false; false; false; false; false; false]
       (Process.two_calls [] hello 3 1000 hello 3 500)) =
  [ Process.mkActivation
      [ ("userMessage"%string, hello); ("retries"%string, VNum 3);
        ("delay"%string, VNum 1000); ("attempt"%string, VNum 1) ]
      (Exited (Return (lit "hi there")));
    Process.mkActivation
      [ ("userMessage"%string, hello); ("retries"%string, VNum 3);
        ("delay"%string, VNum 2000); ("attempt"%string, VNum 3) ]
      (Exited (Rethrow (mkError (lit "Request failed with status code 429")
                          (Some (mkResponse 429
                                   (VObj [ (lit "error", VStr (lit "rate limit")) ])))))) ].
Proof. vm_compute. reflexivity. Qed.

(** Independence of the provider is needed: with one quota for the whole
    process, call 0 is answered when it runs alone and rate-limited when
    call 1 has issued its call first. *)
Example one_quota_couples_the_calls :
  Process.suspended
    (nth 0 (Process.in_flight
              (Process.concurrently [] one_quota [true; true]
                 (Process.two_calls [] hello 3 1000 hello 3 1000)))
       (Process.invoke VUndefined 0 0)) = Exited (Return (lit "hi there")) /\
  Process.suspended
    (nth 0 (Process.in_flight
              (Process.concurrently [] one_quota [false; true; true]
                 (Process.two_calls [] hello 3 1000 hello 3 1000)))
       (Process.invoke VUndefined 0 0)) = AwaitTimer.
Proof. vm_compute. split; reflexivity. Qed.

(** So is the scope of [delay]: were it a variable of the module, the
    doubling done by call 0 would be the first wait of call 1. *)
Example module_level_delay_couples_the_calls :
  waits (Process.own_events 1
           (Process.history
              (Process.concurrently [] (serving (fun _ => always too_many_requests))
                 [true; true; true; false; false] with_module_level_delay))) = [2000] /\
  waits (Process.own_events 1
           (Process.history
              (Process.concurrently [] (serving (fun _ => always too_many_requests))
                 [true; true; true; false; false]
                 (Process.two_calls [] hello 3 1000 hello 3 1000)))) = [1000].
Proof. vm_compute. split; reflexivity. Qed.

(** ** The gateway *)

Import Gateway.

Lemma attempt_loop_calls_mono key upstream um retries attempts : forall d w,
  (calls w <= calls (snd (attempt_loop key upstream attempts um retries d w)))%nat.
Proof.
  induction attempts as [|a later IH]; intros d w; [apply Nat.le_refl|].
  destruct (try_completion (upstream (calls w) (build_request key um)))
    as [reply|e] eqn:Hc.
  - rewrite (attempt_loop_return _ _ _ _ _ _ _ _ reply Hc). cbn [snd calls]. lia.
  - destruct (rate_limited e && (a <? retries)) eqn:Hretry.
    + apply andb_prop in Hretry. destruct Hretry as [Hrl Hlt].
      apply Z.ltb_lt in Hlt.
      rewrite (attempt_loop_retry _ _ _ _ _ _ _ _ e Hc Hrl Hlt).
      etransitivity; [ | apply IH ]. cbn [calls]. lia.
    + rewrite (attempt_loop_rethrow _ _ _ _ _ _ _ _ e Hc Hretry). cbn [snd calls]. lia.
Qed.

(** An invocation with [maxAttempts >= 1] always reaches the upstream. *)
Lemma callGPTWithRetry_calls_upstream key upstream um retries d w :
  1 <= retries ->
  (calls w < calls (snd (callGPTWithRetry key upstream um retries d w)))%nat.
Proof.
  intros Hpos. unfold callGPTWithRetry, attempt_range.
  destruct (Z.to_nat retries) as [|n] eqn:Hn; [lia|].
  cbn [seq map].
  destruct (try_completion (upstream (calls w) (build_request key um)))
    as [reply|e] eqn:Hc.
  - rewrite (attempt_loop_return _ _ _ _ _ _ _ _ reply Hc). cbn [snd calls]. lia.
  - destruct (rate_limited e && (Z.of_nat 1 <? retries)) eqn:Hretry.
    + apply andb_prop in Hretry. destruct Hretry as [Hrl Hlt].
      apply Z.ltb_lt in Hlt.
      rewrite (attempt_loop_retry _ _ _ _ _ _ _ _ e Hc Hrl Hlt).
      eapply Nat.lt_le_trans; [ | apply attempt_loop_calls_mono ]. cbn [calls]. lia.
    + rewrite (attempt_loop_rethrow _ _ _ _ _ _ _ _ e Hc Hretry). cbn [snd calls]. lia.
Qed.

(** The presence check of line 87: a falsy [message] is answered with 400
    and the fixed reply, and nothing else happens. *)
Lemma chat_falsy_message key upstream req_body userMessage w :
  get req_body "message" = Normal userMessage ->
  to_boolean userMessage = false ->
  chat key upstream req_body w =
  (Normal (mkHttp 400 (reply_payload (lit "No message provided."))), w).
Proof.
  intros Hget Hfalsy. unfold chat. rewrite Hget, Hfalsy. reflexivity.
Qed.

Example chat_hello :
  chat [] (always (ok (lit "hi there"))) (VObj [(lit "message", hello)]) fresh =
  (Normal (mkHttp 200 (VObj [(lit "reply", VStr (lit "hi there"))])),
   mkWorld 1 [Post (build_request [] hello)]).
Proof. vm_compute. reflexivity. Qed.

Example chat_boom :
  chat [] (always (Rejected boom)) (VObj [(lit "message", hello)]) fresh =
  (Normal (mkHttp 500
             (VObj [(lit "reply", VStr (lit "Sorry, something went wrong: boom"))])),
   mkWorld 1 [Post (build_request [] hello); LogError (VStr (lit "boom"))]).
Proof. vm_compute. reflexivity. Qed.

Example chat_empty_message :
  chat [] (always (ok (lit "hi there"))) (VObj [(lit "message", VStr [])]) fresh =
  (Normal (mkHttp 400 (VObj [(lit "reply", VStr (lit "No message provided."))])),
   fresh).
Proof. vm_compute. reflexivity. Qed.

(** C8: a [POST /chat] request whose body has no [message] field, or has
    the empty string there, is answered with status 400, a client-error
    status, and the fixed body [{ reply: "No message provided." }], and the
    handler has done nothing else: no upstream call was issued, whereas an
    invocation of [callGPTWithRetry] by the handler would have issued one,
    so the client was not invoked. *)
Theorem C8_message_absent_or_empty
    (key : jsstring) (upstream : nat -> request -> settled)
    (fields : list (jsstring * value)) (w : world) :
  lookup (lit "message") fields = None \/
  lookup (lit "message") fields = Some (VStr []) ->
  chat key upstream (VObj fields) w =
    (Normal (mkHttp 400 (VObj [(lit "reply", VStr (lit "No message provided."))])), w) /\
  400 <= code (mkHttp 400 (VObj [(lit "reply", VStr (lit "No message provided."))])) < 500 /\
  (forall userMessage,
     (calls w < calls (snd (callGPTWithRetry key upstream userMessage
                              default_retries default_delay w)))%nat).
Proof.
  intros Hmsg. split; [ | split ].
  - destruct Hmsg as [Hm | Hm].
    + apply (chat_falsy_message key upstream (VObj fields) VUndefined w);
        [ cbn [get]; rewrite Hm | ]; reflexivity.
    + apply (chat_falsy_message key upstream (VObj fields) (VStr []) w);
        [ cbn [get]; rewrite Hm | ]; reflexivity.
  - cbn [code]. lia.
  - intros um. apply callGPTWithRetry_calls_upstream. unfold default_retries. lia.
Qed.

Lemma C8_witness :
  (chat [] (always (ok (lit "hi there"))) (VObj []) fresh =
     (Normal (mkHttp 400 (VObj [(lit "reply", VStr (lit "No message provided."))])), fresh) /\
   400 <= code (mkHttp 400 (VObj [(lit "reply", VStr (lit "No message provided."))])) < 500 /\
   (forall userMessage,
      (calls fresh < calls (snd (callGPTWithRetry [] (always (ok (lit "hi there")))
                                   userMessage default_retries default_delay fresh)))%nat)) /\
  (chat [] (always (ok (lit "hi there"))) (VObj [(lit "message", VStr [])]) fresh =
     (Normal (mkHttp 400 (VObj [(lit "reply", VStr (lit "No message provided."))])), fresh) /\
   400 <= code (mkHttp 400 (VObj [(lit "reply", VStr (lit "No message provided."))])) < 500 /\
   (forall userMessage,
      (calls fresh < calls (snd (callGPTWithRetry [] (always (ok (lit "hi there")))
                                   userMessage default_retries default_delay fresh)))%nat)).
Proof.
  split.
  - apply (C8_message_absent_or_empty [] (always (ok (lit "hi there"))) [] fresh).
    left. reflexivity.
  - apply (C8_message_absent_or_empty [] (always (ok (lit "hi there")))
             [(lit "message", VStr [])] fresh).
    right. reflexivity.
Defined.

(** C10: the presence check rejects every falsy [message], not only an
    absent or empty one: with [false], [0] or [null] in the [message]
    field the answer is again status 400 with
    [{ reply: "No message provided." }], and the handler has done nothing
    else, so the completion client was not invoked. *)
Theorem C10_falsy_message_rejected
    (key : jsstring) (upstream : nat -> request -> settled)
    (fields : list (jsstring * value)) (w : world) :
  lookup (lit "message") fields = Some (VBool false) \/
  lookup (lit "message") fields = Some (VNum 0) \/
  lookup (lit "message") fields = Some VNull ->
  chat key upstream (VObj fields) w =
    (Normal (mkHttp 400 (VObj [(lit "reply", VStr (lit "No message provided."))])), w) /\
  (forall userMessage,
     (calls w < calls (snd (callGPTWithRetry key upstream userMessage
                              default_retries default_delay w)))%nat).
Proof.
  intros Hmsg. split.
  - destruct Hmsg as [Hm | [Hm | Hm]].
    + apply (chat_falsy_message key upstream (VObj fields) (VBool false) w);
        [ cbn [get]; rewrite Hm | ]; reflexivity.
    + apply (chat_falsy_message key upstream (VObj fields) (VNum 0) w);
        [ cbn [get]; rewrite Hm | ]; reflexivity.
    + apply (chat_falsy_message key upstream (VObj fields) VNull w);
        [ cbn [get]; rewrite Hm | ]; reflexivity.
  - intros um. apply callGPTWithRetry_calls_upstream. unfold default_retries. lia.
Qed.

Lemma C10_witness :
  (chat [] (always (ok (lit "hi there"))) (VObj [(lit "message", VBool false)]) fresh =
     (Normal (mkHttp 400 (VObj [(lit "reply", VStr (lit "No message provided."))])), fresh)) /\
  (chat [] (always (ok (lit "hi there"))) (VObj [(lit "message", VNum 0)]) fresh =
     (Normal (mkHttp 400 (VObj [(lit "reply", VStr (lit "No message provided."))])), fresh)) /\
  (chat [] (always (ok (lit "hi there"))) (VObj [(lit "message", VNull)]) fresh =
     (Normal (mkHttp 400 (VObj [(lit "reply", VStr (lit "No message provided."))])), fresh)).
Proof.
  split; [ | split ].
  - refine (proj1 (C10_falsy_message_rejected [] (always (ok (lit "hi there")))
                     [(lit "message", VBool false)] fresh _)).
    left. reflexivity.
  - refine (proj1 (C10_falsy_message_rejected [] (always (ok (lit "hi there")))
                     [(lit "message", VNum 0)] fresh _)).
    right. left. reflexivity.
  - refine (proj1 (C10_falsy_message_rejected [] (always (ok (lit "hi there")))
                     [(lit "message", VNull)] fresh _)).
    right. right. reflexivity.
Defined.

Example chat_empty_choices :
  chat [] (always (Resolved (mkResponse 200 (VObj [(lit "choices", VArr [])]))))
    (VObj [(lit "message", hello)]) fresh =
  (Normal (mkHttp 500
             (VObj [(lit "reply",
                     VStr (lit "Sorry, something went wrong: Cannot read properties of undefined (reading 'message')"))])),
   mkWorld 1 [Post (build_request [] hello);
              LogError (VStr (lit "Cannot read properties of undefined (reading 'message')"))]).
Proof. vm_compute. reflexivity. Qed.

(** ** Every execution of the retry loop *)

Import Measures.

Section Outcome.

Variable key : jsstring.
Variable upstream : nat -> request -> settled.
Variable um : value.
Variable retries : Z.

Local Abbreviation req := (build_request key um).
Local Abbreviation loop := (attempt_loop key upstream).

(** However the upstream behaves, a run of the loop over the attempts
    [a .. retries] is some number [k] of retried attempts followed by one
    last call, which decides the exit. *)
Lemma attempt_loop_outcome n : forall a d w,
  Z.of_nat a + Z.of_nat (S n) = retries + 1 ->
  exists k,
    (k <= n)%nat /\
    rate_limited_before upstream req (calls w) k /\
    snd (loop (map Z.of_nat (seq a (S n))) um retries d w) =
      mkWorld (calls w + S k)
        (trace w ++ retry_rounds req k (Z.of_nat a) retries d ++ [Post req]) /\
    ((exists reply,
        try_completion (upstream (calls w + k)%nat req) = Normal reply /\
        fst (loop (map Z.of_nat (seq a (S n))) um retries d w) = Return reply) \/
     (exists e,
        try_completion (upstream (calls w + k)%nat req) = Throw e /\
        (rate_limited e = false \/ Z.of_nat (a + k) = retries) /\
        fst (loop (map Z.of_nat (seq a (S n))) um retries d w) = Rethrow e)).
Proof.
  induction n as [|n IH]; intros a d w Ha.
  - exists O. split; [lia|]. split; [intros i Hi; lia|].
    cbn [seq map]. rewrite Nat.add_0_r.
    destruct (try_completion (upstream (calls w) req)) as [reply|e] eqn:Hc.
    + rewrite (attempt_loop_return _ _ _ _ _ _ _ _ reply Hc). cbn [fst snd retry_rounds app].
      split; [f_equal; lia|]. left. exists reply. split; reflexivity.
    + rewrite (attempt_loop_rethrow _ _ _ _ _ _ _ _ e Hc).
      * cbn [fst snd retry_rounds app]. split; [f_equal; lia|].
        right. exists e. split; [reflexivity|]. split; [right; lia | reflexivity].
      * replace (Z.of_nat a <? retries) with false by (symmetry; apply Z.ltb_ge; lia).
        apply andb_false_r.
  - remember (S n) as m eqn:Hm. cbn [seq map].
    destruct (try_completion (upstream (calls w) req)) as [reply|e] eqn:Hc.
    + exists O. split; [lia|]. split; [intros i Hi; lia|]. rewrite Nat.add_0_r, Hc.
      rewrite (attempt_loop_return _ _ _ _ _ _ _ _ reply Hc). cbn [fst snd retry_rounds app].
      split; [f_equal; lia|]. left. exists reply. split; reflexivity.
    + destruct (rate_limited e) eqn:Hrl.
      * rewrite (attempt_loop_retry _ _ _ _ _ _ _ _ e Hc Hrl) by lia.
        destruct (IH (S a) (d * 2)
                    (mkWorld (S (calls w))
                       (trace w ++ [Post req; Warn (Z.of_nat a) retries d; Timeout d])))
          as [k [Hk [Hbefore [Hworld Hexit]]]]; [lia|].
        subst m. exists (S k). split; [lia|]. split; [ | split ].
        -- intros i Hi. destruct i as [|i].
           ++ exists e. rewrite Nat.add_0_r. split; assumption.
           ++ replace (calls w + S i)%nat with (S (calls w) + i)%nat by lia.
              apply Hbefore. lia.
        -- rewrite Hworld. cbn [calls trace retry_rounds].
           replace (Z.of_nat a + 1) with (Z.of_nat (S a)) by lia.
           rewrite <- !app_assoc. f_equal. lia.
        -- cbn [calls] in Hexit.
           replace (calls w + S k)%nat with (S (calls w) + k)%nat by lia.
           replace (Z.of_nat (a + S k)) with (Z.of_nat (S a + k)) by lia.
           exact Hexit.
      * exists O. split; [lia|]. split; [intros i Hi; lia|]. rewrite Nat.add_0_r, Hc.
        rewrite (attempt_loop_rethrow _ _ _ _ _ _ _ _ e Hc) by (rewrite Hrl; reflexivity).
        cbn [fst snd retry_rounds app]. split; [f_equal; lia|].
        right. exists e. split; [reflexivity|]. split; [left; exact Hrl | reflexivity].
Qed.

(** The same for the whole function, entered in any world. *)
Lemma callGPTWithRetry_outcome d w :
  1 <= retries ->
  exists k,
    Z.of_nat k < retries /\
    rate_limited_before upstream req (calls w) k /\
    snd (callGPTWithRetry key upstream um retries d w) =
      mkWorld (calls w + S k)
        (trace w ++ retry_rounds req k 1 retries d ++ [Post req]) /\
    ((exists reply,
        try_completion (upstream (calls w + k)%nat req) = Normal reply /\
        fst (callGPTWithRetry key upstream um retries d w) = Return reply) \/
     (exists e,
        try_completion (upstream (calls w + k)%nat req) = Throw e /\
        (rate_limited e = false \/ Z.of_nat (S k) = retries) /\
        fst (callGPTWithRetry key upstream um retries d w) = Rethrow e)).
Proof.
  intros Hpos. unfold callGPTWithRetry, attempt_range.
  destruct (Z.to_nat retries) as [|n] eqn:Hn; [lia|].
  destruct (attempt_loop_outcome n 1 d w) as [k [Hk [Hbefore [Hworld Hexit]]]]; [lia|].
  exists k. split; [lia|]. split; [exact Hbefore|]. split; [exact Hworld|].
  exact Hexit.
Qed.

End Outcome.

Lemma posted_requests_app t1 t2 :
  posted_requests (t1 ++ t2) = posted_requests t1 ++ posted_requests t2.
Proof.
  induction t1 as [|e t1 IH]; [reflexivity|].
  destruct e; cbn [app posted_requests]; rewrite IH; reflexivity.
Qed.

Lemma posted_requests_retry_rounds req k : forall a retries d,
  posted_requests (retry_rounds req k a retries d) = repeat req k.
Proof.
  induction k as [|k IH]; intros a retries d; [reflexivity|].
  cbn [retry_rounds posted_requests repeat]. rewrite IH. reflexivity.
Qed.

Lemma total_doubling k : forall d, total (doubling d k) = d * (2 ^ Z.of_nat k - 1).
Proof.
  induction k as [|k IH]; intros d.
  - cbn. lia.
  - rewrite doubling_succ. cbn [total fold_right]. fold (total (doubling (d * 2) k)).
    rewrite IH, Nat2Z.inj_succ, Z.pow_succ_r by lia. lia.
Qed.

(** What the extraction returns is the [trim] of some string. *)
Lemma extract_reply_is_trim (r : response) (reply : jsstring) :
  extract_reply r = Normal reply -> exists text, reply = trim text.
Proof.
  unfold extract_reply.
  destruct (get (data r) "choices") as [choices|x]; cbn [JS.bind]; [|discriminate].
  destruct (get_index choices 0) as [first|x]; cbn [JS.bind]; [|discriminate].
  destruct (get first "message") as [msg|x]; cbn [JS.bind]; [|discriminate].
  destruct (get msg "content") as [text|x]; cbn [JS.bind]; [|discriminate].
  destruct text; cbn [call_trim]; try discriminate.
  intros H. injection H as <-. eexists. reflexivity.
Qed.

Lemma try_completion_normal (s : settled) (reply : jsstring) :
  try_completion s = Normal reply ->
  exists r, s = Resolved r /\ extract_reply r = Normal reply.
Proof.
  destruct s as [r|e]; cbn [try_completion]; [|discriminate].
  intros H. exists r. split; [reflexivity | exact H].
Qed.

(** X1: with [maxAttempts >= 1], whatever the upstream does, the effects of
    a call are [k] retried attempts (call, warning, wait) followed by one
    last call, for some [k < maxAttempts]: at most [maxAttempts] upstream
    calls, all with the same request, one wait fewer than calls, and waits
    [d, 2d, 4d, ...]. *)
Theorem X1_effects_of_every_call
    (key : jsstring) (upstream : nat -> request -> settled) (um : value)
    (retries d : Z) :
  1 <= retries ->
  exists k,
    Z.of_nat k < retries /\
    snd (callGPTWithRetry key upstream um retries d fresh) =
      mkWorld (S k)
        (retry_rounds (build_request key um) k 1 retries d
           ++ [Post (build_request key um)]) /\
    Z.of_nat (calls (snd (callGPTWithRetry key upstream um retries d fresh))) <= retries /\
    posted_requests (trace (snd (callGPTWithRetry key upstream um retries d fresh))) =
      repeat (build_request key um) (S k) /\
    waits (trace (snd (callGPTWithRetry key upstream um retries d fresh))) =
      doubling d k.
Proof.
  intros Hpos.
  destruct (callGPTWithRetry_outcome key upstream um retries d fresh Hpos)
    as [k [Hk [_ [Hworld _]]]].
  cbn [fresh calls trace app Nat.add] in Hworld.
  exists k. split; [exact Hk|]. rewrite Hworld. cbn [calls trace].
  split; [reflexivity|]. split; [lia|]. split.
  - rewrite posted_requests_app, posted_requests_retry_rounds.
    cbn [posted_requests]. rewrite <- repeat_cons. reflexivity.
  - rewrite waits_app, waits_retry_rounds. cbn [waits]. apply app_nil_r.
Qed.

Lemma X1_witness :
  exists k,
    Z.of_nat k < 3 /\
    snd (callGPTWithRetry [] (limited_then_body 1 VNull) hello 3 1000 fresh) =
      mkWorld (S k)
        (retry_rounds (build_request [] hello) k 1 3 1000
           ++ [Post (build_request [] hello)]) /\
    Z.of_nat (calls (snd (callGPTWithRetry [] (limited_then_body 1 VNull) hello 3 1000 fresh)))
      <= 3 /\
    posted_requests
      (trace (snd (callGPTWithRetry [] (limited_then_body 1 VNull) hello 3 1000 fresh))) =
      repeat (build_request [] hello) (S k) /\
    waits (trace (snd (callGPTWithRetry [] (limited_then_body 1 VNull) hello 3 1000 fresh))) =
      doubling 1000 k.
Proof.
  apply (X1_effects_of_every_call [] (limited_then_body 1 VNull) hello 3 1000). lia.
Defined.

(** X2: the "Exceeded maximum retry attempts" error is thrown exactly when
    [retries] is below 1, and then at once: no upstream call, no warning,
    no wait. *)
Theorem X2_exceeded_iff_no_attempt
    (key : jsstring) (upstream : nat -> request -> settled) (um : value)
    (retries d : Z) (w : world) :
  (fst (callGPTWithRetry key upstream um retries d w) = Exceeded <-> retries < 1) /\
  (retries < 1 -> callGPTWithRetry key upstream um retries d w = (Exceeded, w)).
Proof.
  assert (Hnone : retries < 1 ->
                  callGPTWithRetry key upstream um retries d w = (Exceeded, w)).
  { intros Hr. unfold callGPTWithRetry, attempt_range.
    replace (Z.to_nat retries) with O by lia. reflexivity. }
  split; [ | exact Hnone ]. split.
  - intros Hx. destruct (Z_lt_le_dec retries 1) as [Hlt | Hge]; [exact Hlt|].
    destruct (callGPTWithRetry_outcome key upstream um retries d w Hge)
      as [k [_ [_ [_ [[reply [_ Hexit]] | [e [_ [_ Hexit]]]]]]]];
      rewrite Hexit in Hx; discriminate.
  - intros Hr. rewrite (Hnone Hr). reflexivity.
Qed.

(** X3: with [maxAttempts >= 1], a rate-limit error reaches the caller only
    when the attempts are exhausted: then [maxAttempts] calls were issued,
    every one of them was answered by a rate-limit failure, and all
    [maxAttempts - 1] waits took place. *)
Theorem X3_rate_limit_surfaces_only_when_exhausted
    (key : jsstring) (upstream : nat -> request -> settled) (um : value)
    (retries d : Z) (e : error) (w' : world) :
  1 <= retries ->
  callGPTWithRetry key upstream um retries d fresh = (Rethrow e, w') ->
  rate_limited e = true ->
  calls w' = Z.to_nat retries /\
  rate_limited_before upstream (build_request key um) 0 (Z.to_nat retries) /\
  waits (trace w') = doubling d (Z.to_nat retries - 1).
Proof.
  intros Hpos Hcall Hrl.
  destruct (callGPTWithRetry_outcome key upstream um retries d fresh Hpos)
    as [k [Hk [Hbefore [Hworld Hexit]]]].
  rewrite Hcall in Hworld, Hexit. cbn [fst snd fresh calls trace app Nat.add] in *.
  destruct Hexit as [[reply [_ Hx]] | [e' [Hc [Hlast Hx]]]]; [discriminate|].
  injection Hx as <-.
  destruct Hlast as [Hno | Hlast]; [congruence|].
  subst w'. cbn [calls trace]. split; [lia|]. split.
  - intros i Hi. destruct (Nat.eq_dec i k) as [-> | Hne].
    + exists e. split; assumption.
    + apply Hbefore. lia.
  - rewrite waits_app, waits_retry_rounds. cbn [waits]. rewrite app_nil_r.
    f_equal. lia.
Qed.

Lemma X3_witness :
  calls (snd (callGPTWithRetry [] (always too_many_requests) hello 3 1000 fresh)) =
    Z.to_nat 3 /\
  rate_limited_before (always too_many_requests) (build_request [] hello) 0 (Z.to_nat 3) /\
  waits (trace (snd (callGPTWithRetry [] (always too_many_requests) hello 3 1000 fresh))) =
    doubling 1000 (Z.to_nat 3 - 1).
Proof.
  apply (X3_rate_limit_surfaces_only_when_exhausted [] (always too_many_requests) hello
           3 1000
           (mkError (lit "Request failed with status code 429")
              (Some (mkResponse 429 (VObj [ (lit "error", VStr (lit "rate limit")) ]))))).
  - lia.
  - vm_compute. reflexivity.
  - reflexivity.
Defined.

(** X4: with [maxAttempts >= 1], a reply that is returned is the one
    extracted from the response to the last call issued, every earlier call
    having been answered by a rate-limit failure; and it is trimmed: neither
    its first nor its last code unit is whitespace or a line terminator. *)
Theorem X4_returned_reply
    (key : jsstring) (upstream : nat -> request -> settled) (um : value)
    (retries d : Z) (reply : jsstring) (w' : world) :
  1 <= retries ->
  callGPTWithRetry key upstream um retries d fresh = (Return reply, w') ->
  exists k r,
    calls w' = S k /\
    rate_limited_before upstream (build_request key um) 0 k /\
    upstream k (build_request key um) = Resolved r /\
    extract_reply r = Normal reply /\
    trimmed reply.
Proof.
  intros Hpos Hcall.
  destruct (callGPTWithRetry_outcome key upstream um retries d fresh Hpos)
    as [k [Hk [Hbefore [Hworld Hexit]]]].
  rewrite Hcall in Hworld, Hexit. cbn [fst snd fresh calls trace app Nat.add] in *.
  destruct Hexit as [[reply' [Hc Hx]] | [e [_ [_ Hx]]]]; [|discriminate].
  injection Hx as <-.
  destruct (try_completion_normal _ _ Hc) as [r [Hr Hext]].
  exists k, r. subst w'. cbn [calls].
  split; [reflexivity|]. split; [exact Hbefore|]. split; [exact Hr|].
  split; [exact Hext|].
  destruct (extract_reply_is_trim r reply Hext) as [text ->].
  exact (trim_ends text).
Qed.

Lemma X4_witness :
  exists k r,
    calls (mkWorld 2 [ Post (build_request [] hello); Warn 1 3 1000; Timeout 1000;
                       Post (build_request [] hello) ]) = S k /\
    rate_limited_before (limited_then_ok 1 (lit " hi there ")) (build_request [] hello) 0 k /\
    limited_then_ok 1 (lit " hi there ") k (build_request [] hello) = Resolved r /\
    extract_reply r = Normal (lit "hi there") /\
    trimmed (lit "hi there").
Proof.
  apply (X4_returned_reply [] (limited_then_ok 1 (lit " hi there ")) hello 3 1000).
  - lia.
  - vm_compute. reflexivity.
Defined.

(** X5: with [maxAttempts >= 1], a call that issued [c] upstream calls has
    waited [d * (2^(c-1) - 1)] milliseconds in all; for a non-negative
    initial delay that is at most [d * (2^(maxAttempts-1) - 1)], whatever
    the upstream does. *)
Theorem X5_total_backoff
    (key : jsstring) (upstream : nat -> request -> settled) (um : value)
    (retries d : Z) :
  1 <= retries ->
  total (waits (trace (snd (callGPTWithRetry key upstream um retries d fresh)))) =
    d * (2 ^ (Z.of_nat (calls (snd (callGPTWithRetry key upstream um retries d fresh))) - 1)
         - 1) /\
  (0 <= d ->
   total (waits (trace (snd (callGPTWithRetry key upstream um retries d fresh)))) <=
     d * (2 ^ (retries - 1) - 1)).
Proof.
  intros Hpos.
  destruct (callGPTWithRetry_outcome key upstream um retries d fresh Hpos)
    as [k [Hk [_ [Hworld _]]]].
  cbn [fresh calls trace app Nat.add] in Hworld. rewrite Hworld. cbn [calls trace].
  rewrite waits_app, waits_retry_rounds. cbn [waits]. rewrite app_nil_r, total_doubling.
  replace (Z.of_nat (S k) - 1) with (Z.of_nat k) by lia.
  split; [reflexivity|].
  intros Hd. apply Z.mul_le_mono_nonneg_l; [exact Hd|].
  assert (2 ^ Z.of_nat k <= 2 ^ (retries - 1)) by (apply Z.pow_le_mono_r; lia).
  lia.
Qed.

Lemma X5_witness :
  total (waits (trace (snd (callGPTWithRetry [] (always too_many_requests) hello 3 1000 fresh)))) =
    1000 * (2 ^ (Z.of_nat (calls (snd (callGPTWithRetry [] (always too_many_requests)
                                        hello 3 1000 fresh))) - 1) - 1) /\
  (0 <= 1000 ->
   total (waits (trace (snd (callGPTWithRetry [] (always too_many_requests) hello 3 1000 fresh))))
     <= 1000 * (2 ^ (3 - 1) - 1)).
Proof.
  apply (X5_total_backoff [] (always too_many_requests) hello 3 1000). lia.
Defined.

Lemma attempt_loop_after_calls key upstream um retries c t attempts : forall d w0,
  attempt_loop key upstream attempts um retries d
    (mkWorld (c + calls w0) (t ++ trace w0)) =
  (fst (attempt_loop key (after_calls c upstream) attempts um retries d w0),
   mkWorld (c + calls (snd (attempt_loop key (after_calls c upstream) attempts um retries d w0)))
     (t ++ trace (snd (attempt_loop key (after_calls c upstream) attempts um retries d w0)))).
Proof.
  induction attempts as [|a later IH]; intros d w0; [reflexivity|].
  destruct (try_completion (upstream (c + calls w0)%nat (build_request key um)))
    as [reply|e] eqn:Hc.
  - rewrite (attempt_loop_return key upstream um retries a later d (mkWorld (c + calls w0) (t ++ trace w0)) reply) by exact Hc.
    rewrite (attempt_loop_return key (after_calls c upstream) um retries a later d w0 reply)
      by exact Hc.
    cbn [fst snd calls trace]. rewrite <- app_assoc. f_equal. f_equal. lia.
  - destruct (rate_limited e && (a <? retries)) eqn:Hretry.
    + apply andb_prop in Hretry. destruct Hretry as [Hrl Hlt]. apply Z.ltb_lt in Hlt.
      rewrite (attempt_loop_retry key upstream um retries a later d (mkWorld (c + calls w0) (t ++ trace w0)) e Hc Hrl Hlt).
      rewrite (attempt_loop_retry key (after_calls c upstream) um retries a later d w0 e
                 Hc Hrl Hlt).
      cbn [calls trace]. rewrite <- app_assoc.
      replace (S (c + calls w0)) with (c + S (calls w0))%nat by lia.
      exact (IH (d * 2)
               (mkWorld (S (calls w0))
                  (trace w0 ++ [Post (build_request key um); Warn a retries d; Timeout d]))).
    + rewrite (attempt_loop_rethrow key upstream um retries a later d (mkWorld (c + calls w0) (t ++ trace w0)) e Hc Hretry).
      rewrite (attempt_loop_rethrow key (after_calls c upstream) um retries a later d w0 e
                 Hc Hretry).
      cbn [fst snd calls trace]. rewrite <- app_assoc. f_equal. f_equal. lia.
Qed.

(** X6: a call only appends to what was done before.  Entered after [c]
    upstream calls and a trace [t], it exits as a call entered afresh
    against the remaining upstream responses does, and its effects are
    those of that call added after [c] and [t], which are left as they
    were. *)
Theorem X6_call_appends_to_earlier_effects
    (key : jsstring) (upstream : nat -> request -> settled) (um : value)
    (retries d : Z) (w : world) :
  callGPTWithRetry key upstream um retries d w =
  (fst (callGPTWithRetry key (after_calls (calls w) upstream) um retries d fresh),
   mkWorld
     (calls w + calls (snd (callGPTWithRetry key (after_calls (calls w) upstream)
                              um retries d fresh)))
     (trace w ++ trace (snd (callGPTWithRetry key (after_calls (calls w) upstream)
                                um retries d fresh)))).
Proof.
  unfold callGPTWithRetry.
  rewrite <- (attempt_loop_after_calls key upstream um retries (calls w) (trace w)
                (attempt_range retries) d fresh).
  cbn [fresh calls trace]. rewrite Nat.add_0_r, app_nil_r. destruct w. reflexivity.
Qed.

(** From the loop test with [attempt = a], the machine has exited after
    three steps per remaining attempt and one more. *)
Lemma run_exits_within key upstream um retries k : forall a d w,
  0 <= a ->
  k = Z.to_nat (retries + 1 - a) ->
  exists x, pc (run key upstream um retries (3 * k + 1) (mkState a d LoopTest w)) = Exited x.
Proof.
  induction k as [|k IH]; intros a d w Ha Hk.
  - exists Exceeded. cbn [Nat.mul Nat.add]. machine_simpl.
    replace (a <=? retries) with false by (symmetry; apply Z.leb_gt; lia).
    reflexivity.
  - replace (3 * S k + 1)%nat with (3 + (3 * k + 1))%nat by lia.
    rewrite run_add.
    assert (Hle : (a <=? retries) = true) by (apply Z.leb_le; lia).
    machine_simpl. rewrite Hle. machine_simpl.
    destruct (try_completion (upstream (calls w) (build_request key um))) as [reply|e].
    + machine_simpl. exists (Return reply).
      rewrite run_terminal by reflexivity. reflexivity.
    + destruct (rate_limited e && (a <? retries)).
      * machine_simpl. apply IH; lia.
      * machine_simpl. exists (Rethrow e).
        rewrite run_terminal by reflexivity. reflexivity.
Qed.

(** X7: one invocation always exits, within [3 * maxAttempts + 1] steps of
    its state machine (issue the call, take the answer, let the timer
    fire), and it exits with the result and the effects of
    [callGPTWithRetry]. *)
Theorem X7_machine_exits_within_bound
    (key : jsstring) (upstream : nat -> request -> settled) (um : value)
    (retries d : Z) (n : nat) :
  (3 * Z.to_nat retries + 1 <= n)%nat ->
  exists x,
    pc (run key upstream um retries n (start d)) = Exited x /\
    (x, effects (run key upstream um retries n (start d))) =
    callGPTWithRetry key upstream um retries d fresh.
Proof.
  intros Hn.
  destruct (run_exits_within key upstream um retries (Z.to_nat retries) 1 d fresh)
    as [x Hx]; [lia | f_equal; lia |].
  fold (start d) in Hx.
  assert (Hrun : run key upstream um retries n (start d) =
                 run key upstream um retries (3 * Z.to_nat retries + 1) (start d)).
  { replace n with ((3 * Z.to_nat retries + 1) + (n - (3 * Z.to_nat retries + 1)))%nat
      by lia.
    rewrite run_add. apply run_terminal. apply step_exited. exists x. exact Hx. }
  exists x. rewrite Hrun. split; [exact Hx|].
  apply exited_as_callGPTWithRetry. exact Hx.
Qed.

Lemma X7_witness :
  exists x,
    pc (run [] (always too_many_requests) hello 3 10 (start 1000)) = Exited x /\
    (x, effects (run [] (always too_many_requests) hello 3 10 (start 1000))) =
    callGPTWithRetry [] (always too_many_requests) hello 3 1000 fresh.
Proof.
  apply (X7_machine_exits_within_bound [] (always too_many_requests) hello 3 1000 10).
  unfold resumes; cbn; lia.
Defined.



(** ** Every request to the handler *)

Lemma logged_errors_app t1 t2 :
  logged_errors (t1 ++ t2) = logged_errors t1 ++ logged_errors t2.
Proof.
  induction t1 as [|e t1 IH]; [reflexivity|].
  destruct e; cbn [app logged_errors]; rewrite IH; reflexivity.
Qed.

Lemma logged_errors_retry_rounds req k : forall a retries d,
  logged_errors (retry_rounds req k a retries d) = [].
Proof.
  induction k as [|k IH]; intros a retries d; [reflexivity|].
  cbn [retry_rounds logged_errors]. apply IH.
Qed.

(** Reading a property throws only on [undefined] and [null]. *)
Lemma get_defined (v : value) (name : string) :
  v <> VUndefined -> v <> VNull -> exists x, get v name = Normal x.
Proof.
  intros Hu Hn. destruct v; try congruence; cbn [get]; try (eexists; reflexivity).
  destruct (lookup (lit name) fields); eexists; reflexivity.
Qed.

(** Lines 91-98: with a truthy [message] the answer is read off the way
    [callGPTWithRetry] exits. *)
Lemma chat_truthy_message key upstream req_body um w x w1 :
  get req_body "message" = Normal um ->
  to_boolean um = true ->
  callGPTWithRetry key upstream um default_retries default_delay w = (x, w1) ->
  chat key upstream req_body w =
  match settle x with
  | Normal replyText => (Normal (mkHttp 200 (reply_payload replyText)), w1)
  | Throw error =>
      (Normal (mkHttp 500
                 (reply_payload (lit "Sorry, something went wrong: " ++ message error))),
       emit (LogError (match eresponse error with
                       | Some r => data r
                       | None => VStr (message error)
                       end)) w1)
  end.
Proof.
  intros Hget Htruthy Hcall. unfold chat. rewrite Hget, Htruthy. cbn [negb].
  unfold mbind. rewrite Hcall. destruct (settle x); reflexivity.
Qed.

(** The default arguments leave room for three attempts. *)
Lemma at_most_three k : Z.of_nat k < default_retries -> k = 0%nat \/ k = 1%nat \/ k = 2%nat.
Proof. unfold default_retries. lia. Qed.

(** X9: what the handler does with any request body.  Reading
    [req.body.message] of an [undefined] or [null] body throws a
    [TypeError] before anything is done or sent.  Otherwise the handler
    answers, in one of three ways: 400 with the fixed reply and no effect;
    200 with a reply that is trimmed, nothing having been logged by
    [console.error]; or 500 with the message of the error after the fixed
    prefix, the error's response data (its message, if it has no response)
    having been logged exactly once. *)
Theorem X9_handler_answers
    (key : jsstring) (upstream : nat -> request -> settled) (req_body : value) :
  ((req_body = VUndefined \/ req_body = VNull) /\
   exists e, chat key upstream req_body fresh = (Throw e, fresh) /\ eresponse e = None) \/
  (req_body <> VUndefined /\ req_body <> VNull /\
   exists resp w',
     chat key upstream req_body fresh = (Normal resp, w') /\
     ((code resp = 400 /\ body resp = reply_payload (lit "No message provided.") /\
       w' = fresh) \/
      (code resp = 200 /\
       exists reply, body resp = reply_payload reply /\ trimmed reply /\
                     logged_errors (trace w') = []) \/
      (code resp = 500 /\
       exists e,
         body resp = reply_payload (lit "Sorry, something went wrong: " ++ message e) /\
         logged_errors (trace w') =
           [match eresponse e with Some r => data r | None => VStr (message e) end]))).
Proof.
  assert (Hnullish : (req_body = VUndefined \/ req_body = VNull) \/
                     (req_body <> VUndefined /\ req_body <> VNull)).
  { destruct req_body; auto; right; split; discriminate. }
  destruct Hnullish as [Hnull | [Hu Hn]].
  - left. split; [exact Hnull|].
    destruct Hnull as [-> | ->]; eexists; split; reflexivity.
  - right. split; [exact Hu|]. split; [exact Hn|].
    destruct (get_defined req_body "message" Hu Hn) as [um Hget].
    destruct (to_boolean um) eqn:Htruthy.
    + assert (Hpos : 1 <= default_retries) by (unfold default_retries; lia).
      destruct (callGPTWithRetry_outcome key upstream um default_retries default_delay
                  fresh Hpos) as [k [_ [_ [Hworld Hexit]]]].
      destruct (callGPTWithRetry key upstream um default_retries default_delay fresh)
        as [x w1] eqn:Hcall.
      cbn [fst snd fresh calls trace app Nat.add] in Hworld, Hexit.
      rewrite (chat_truthy_message key upstream req_body um fresh x w1 Hget Htruthy Hcall).
      subst w1.
      destruct Hexit as [[reply [Hc ->]] | [e [_ [_ ->]]]]; cbn [settle].
      * eexists. eexists. split; [reflexivity|]. right. left.
        split; [reflexivity|]. exists reply. split; [reflexivity|]. split.
        -- destruct (try_completion_normal _ _ Hc) as [r [_ Hext]].
           destruct (extract_reply_is_trim r reply Hext) as [text ->].
           exact (trim_ends text).
        -- cbn [trace]. rewrite logged_errors_app, logged_errors_retry_rounds.
           reflexivity.
      * eexists. eexists. split; [reflexivity|]. right. right.
        split; [reflexivity|]. exists e. split; [reflexivity|].
        unfold emit. cbn [trace].
        rewrite !logged_errors_app, logged_errors_retry_rounds. reflexivity.
    + eexists. eexists. split.
      * apply (chat_falsy_message key upstream req_body um fresh Hget Htruthy).
      * left. repeat split.
Qed.

(** All the calls of one request carry the same request. *)
Lemma chat_posts_one_request key upstream req_body um :
  get req_body "message" = Normal um ->
  Forall (fun r => r = build_request key um)
    (posted_requests (trace (snd (chat key upstream req_body fresh)))).
Proof.
  intros Hget.
  destruct (to_boolean um) eqn:Htruthy.
  - assert (Hpos : 1 <= default_retries) by (unfold default_retries; lia).
    destruct (callGPTWithRetry_outcome key upstream um default_retries default_delay
                fresh Hpos) as [k [_ [_ [Hworld _]]]].
    destruct (callGPTWithRetry key upstream um default_retries default_delay fresh)
      as [x w1] eqn:Hcall.
    cbn [fst snd fresh calls trace app Nat.add] in Hworld. subst w1.
    rewrite (chat_truthy_message key upstream req_body um fresh x _ Hget Htruthy Hcall).
    assert (Hall : Forall (fun r => r = build_request key um)
                     (posted_requests
                        (retry_rounds (build_request key um) k 1 default_retries default_delay
                           ++ [Post (build_request key um)]))).
    { rewrite posted_requests_app, posted_requests_retry_rounds. cbn [posted_requests].
      apply Forall_app. split; [ | repeat constructor ].
      apply Forall_forall. intros r Hr. apply repeat_spec in Hr. exact Hr. }
    destruct (settle x); cbn [snd trace emit]; [exact Hall|].
    rewrite posted_requests_app. cbn [posted_requests]. rewrite app_nil_r. exact Hall.
  - rewrite (chat_falsy_message key upstream req_body um fresh Hget Htruthy).
    constructor.
Qed.

(** X10: the handler reaches the upstream exactly when [message] is truthy,
    and then [message] is forwarded as it came, whatever its type (a
    number, an object, a string of blanks): the first effect is the call
    whose request carries it as the content of the user message, after the
    fixed system message, and every later call repeats that request. *)
Theorem X10_message_forwarded_as_is
    (key : jsstring) (upstream : nat -> request -> settled) (req_body um : value) :
  get req_body "message" = Normal um ->
  (calls (snd (chat key upstream req_body fresh)) = 0%nat <-> to_boolean um = false) /\
  (to_boolean um = true ->
   messages (build_request key um) =
     [ mkMessage (lit "system") (VStr system_prompt); mkMessage (lit "user") um ] /\
   (exists rest,
      trace (snd (chat key upstream req_body fresh)) = Post (build_request key um) :: rest) /\
   Forall (fun r => r = build_request key um)
     (posted_requests (trace (snd (chat key upstream req_body fresh))))).
Proof.
  intros Hget.
  pose proof (chat_posts_one_request key upstream req_body um Hget) as Hall.
  destruct (to_boolean um) eqn:Htruthy.
  - assert (Hpos : 1 <= default_retries) by (unfold default_retries; lia).
    destruct (callGPTWithRetry_outcome key upstream um default_retries default_delay
                fresh Hpos) as [k [_ [_ [Hworld _]]]].
    destruct (callGPTWithRetry key upstream um default_retries default_delay fresh)
      as [x w1] eqn:Hcall.
    cbn [fst snd fresh calls trace app Nat.add] in Hworld. subst w1.
    rewrite (chat_truthy_message key upstream req_body um fresh x _ Hget Htruthy Hcall)
      in Hall |- *.
    assert (Hfirst : exists rest,
               retry_rounds (build_request key um) k 1 default_retries default_delay
                 ++ [Post (build_request key um)] = Post (build_request key um) :: rest).
    { destruct k; cbn [retry_rounds app]; eexists; reflexivity. }
    destruct Hfirst as [rest Hrest].
    destruct (settle x); cbn [snd calls trace emit] in Hall |- *.
    + split; [split; discriminate|]. intros _.
      split; [reflexivity|]. split; [exists rest; exact Hrest | exact Hall].
    + split; [split; discriminate|]. intros _.
      split; [reflexivity|]. split; [ | exact Hall ].
      rewrite Hrest. eexists. reflexivity.
  - rewrite (chat_falsy_message key upstream req_body um fresh Hget Htruthy).
    cbn [snd fresh calls]. split; [split; reflexivity | discriminate].
Qed.

Lemma X10_witness :
  (calls (snd (chat [] (always (ok (lit "hi"))) (VObj [(lit "message", VNum 5)]) fresh))
     = 0%nat <-> to_boolean (VNum 5) = false) /\
  (to_boolean (VNum 5) = true ->
   messages (build_request [] (VNum 5)) =
     [ mkMessage (lit "system") (VStr system_prompt); mkMessage (lit "user") (VNum 5) ] /\
   (exists rest,
      trace (snd (chat [] (always (ok (lit "hi"))) (VObj [(lit "message", VNum 5)]) fresh))
        = Post (build_request [] (VNum 5)) :: rest) /\
   Forall (fun r => r = build_request [] (VNum 5))
     (posted_requests
        (trace (snd (chat [] (always (ok (lit "hi"))) (VObj [(lit "message", VNum 5)])
                       fresh))))).
Proof.
  apply (X10_message_forwarded_as_is [] (always (ok (lit "hi")))
           (VObj [(lit "message", VNum 5)]) (VNum 5)).
  reflexivity.
Defined.

(** X11: a truthy [message] answered by the upstream, at once or after one
    or two rate-limited attempts, gets status 200 and
    [{ reply: <the trimmed text of the first choice> }]; the handler has
    issued one call more than there were rate-limited attempts, waited
    1000 ms and then 2000 ms between them, and logged no error. *)
Theorem X11_reply_relayed
    (key : jsstring) (upstream : nat -> request -> settled) (req_body um : value)
    (k : nat) (text : jsstring) :
  get req_body "message" = Normal um ->
  to_boolean um = true ->
  Z.of_nat k < default_retries ->
  (forall i, (i < k)%nat -> signals_rate_limit (upstream i (build_request key um))) ->
  succeeds_with (upstream k (build_request key um)) text ->
  chat key upstream req_body fresh =
    (Normal (mkHttp 200 (VObj [(lit "reply", VStr (trim text))])),
     mkWorld (S k)
       (retry_rounds (build_request key um) k 1 default_retries default_delay
          ++ [Post (build_request key um)])) /\
  waits (retry_rounds (build_request key um) k 1 default_retries default_delay
           ++ [Post (build_request key um)]) = firstn k [1000; 2000].
Proof.
  intros Hget Htruthy Hk Hrl [r [Hr Htext]]. split.
  - apply (chat_truthy_message key upstream req_body um fresh (Return (trim text))
             _ Hget Htruthy).
    rewrite (callGPTWithRetry_rounds key upstream um default_retries k); [ | exact Hrl | exact Hk ].
    destruct (Z.to_nat default_retries - k)%nat as [|n] eqn:Hn; [lia|].
    cbn [seq map].
    rewrite (attempt_loop_return key upstream um default_retries _ _ _ _ (trim text))
      by (cbn [calls]; rewrite Hr; apply extract_reply_text; exact Htext).
    reflexivity.
  - rewrite waits_app, waits_retry_rounds. cbn [waits]. rewrite app_nil_r.
    destruct (at_most_three k Hk) as [-> | [-> | ->]]; reflexivity.
Qed.

Lemma X11_witness :
  chat [] (limited_then_ok 2 (lit " hi there ")) (VObj [(lit "message", hello)]) fresh =
    (Normal (mkHttp 200 (VObj [(lit "reply", VStr (trim (lit " hi there ")))])),
     mkWorld 3
       (retry_rounds (build_request [] hello) 2 1 default_retries default_delay
          ++ [Post (build_request [] hello)])) /\
  waits (retry_rounds (build_request [] hello) 2 1 default_retries default_delay
           ++ [Post (build_request [] hello)]) = firstn 2 [1000; 2000].
Proof.
  apply (X11_reply_relayed [] (limited_then_ok 2 (lit " hi there "))
           (VObj [(lit "message", hello)]) hello 2 (lit " hi there ")).
  - reflexivity.
  - reflexivity.
  - unfold default_retries. lia.
  - intros i Hi. destruct i as [|[|i]]; [ | | lia ];
      (eexists; eexists; repeat split; reflexivity).
  - eexists. split; reflexivity.
Defined.

(** X12: a truthy [message] whose call fails, by a failure that is not a
    rate-limit signal at any attempt (a rejection, or a response from which
    no reply can be extracted) or by any failure at the third attempt, gets
    status 500 and [{ reply: "Sorry, something went wrong: " + message }]
    with the message of that very error; its response data, or its message
    if it carries no response, is what [console.error] logs, once, after
    the last call. *)
Theorem X12_failure_reported
    (key : jsstring) (upstream : nat -> request -> settled) (req_body um : value)
    (k : nat) (e : error) :
  get req_body "message" = Normal um ->
  to_boolean um = true ->
  Z.of_nat k < default_retries ->
  (forall i, (i < k)%nat -> signals_rate_limit (upstream i (build_request key um))) ->
  try_completion (upstream k (build_request key um)) = Throw e ->
  rate_limited e = false \/ k = 2%nat ->
  chat key upstream req_body fresh =
    (Normal (mkHttp 500
               (VObj [(lit "reply",
                       VStr (lit "Sorry, something went wrong: " ++ message e))])),
     mkWorld (S k)
       (retry_rounds (build_request key um) k 1 default_retries default_delay
          ++ [Post (build_request key um);
              LogError (match eresponse e with
                        | Some r => data r
                        | None => VStr (message e)
                        end)])).
Proof.
  intros Hget Htruthy Hk Hrl Hc Hlast.
  rewrite (chat_truthy_message key upstream req_body um fresh (Rethrow e)
             (mkWorld (S k)
                (retry_rounds (build_request key um) k 1 default_retries default_delay
                   ++ [Post (build_request key um)])) Hget Htruthy).
  - cbn [settle]. unfold emit. cbn [calls trace]. rewrite <- app_assoc. reflexivity.
  - rewrite (callGPTWithRetry_rounds key upstream um default_retries k);
      [ | exact Hrl | exact Hk ].
    destruct (Z.to_nat default_retries - k)%nat as [|n] eqn:Hn; [lia|].
    cbn [seq map].
    rewrite (attempt_loop_rethrow key upstream um default_retries _ _ _ _ e).
    + reflexivity.
    + exact Hc.
    + destruct Hlast as [-> | ->]; [reflexivity|].
      replace (Z.of_nat 3 <? default_retries) with false by reflexivity.
      apply andb_false_r.
Qed.

Lemma X12_witness :
  chat [] (always too_many_requests) (VObj [(lit "message", hello)]) fresh =
    (Normal (mkHttp 500
               (VObj [(lit "reply",
                       VStr (lit "Sorry, something went wrong: "
                               ++ lit "Request failed with status code 429"))])),
     mkWorld 3
       (retry_rounds (build_request [] hello) 2 1 default_retries default_delay
          ++ [Post (build_request [] hello);
              LogError (VObj [ (lit "error", VStr (lit "rate limit")) ])])) /\
  chat [] (always (Rejected boom)) (VObj [(lit "message", hello)]) fresh =
    (Normal (mkHttp 500
               (VObj [(lit "reply",
                       VStr (lit "Sorry, something went wrong: " ++ lit "boom"))])),
     mkWorld 1
       (retry_rounds (build_request [] hello) 0 1 default_retries default_delay
          ++ [Post (build_request [] hello); LogError (VStr (lit "boom"))])).
Proof.
  split.
  - apply (X12_failure_reported [] (always too_many_requests)
             (VObj [(lit "message", hello)]) hello 2
             (mkError (lit "Request failed with status code 429")
                (Some (mkResponse 429 (VObj [ (lit "error", VStr (lit "rate limit")) ]))))).
    + reflexivity.
    + reflexivity.
    + unfold default_retries. lia.
    + intros i _. eexists. eexists. repeat split; reflexivity.
    + reflexivity.
    + right. reflexivity.
  - apply (X12_failure_reported [] (always (Rejected boom))
             (VObj [(lit "message", hello)]) hello 0 boom).
    + reflexivity.
    + reflexivity.
    + unfold default_retries. lia.
    + intros i Hi. lia.
    + reflexivity.
    + left. reflexivity.
Defined.

(** X13: whatever the request body and whatever the upstream does, one
    request costs at most three upstream calls and at most 3000 ms of
    backoff: the waits are none, 1000 ms, or 1000 ms then 2000 ms, one
    fewer than the calls. *)
Theorem X13_cost_of_a_request
    (key : jsstring) (upstream : nat -> request -> settled) (req_body : value) :
  (calls (snd (chat key upstream req_body fresh)) <= 3)%nat /\
  posts (trace (snd (chat key upstream req_body fresh))) =
    calls (snd (chat key upstream req_body fresh)) /\
  waits (trace (snd (chat key upstream req_body fresh))) =
    firstn (calls (snd (chat key upstream req_body fresh)) - 1) [1000; 2000] /\
  total (waits (trace (snd (chat key upstream req_body fresh)))) <= 3000.
Proof.
  assert (Hidle : snd (chat key upstream req_body fresh) = fresh ->
                  (calls (snd (chat key upstream req_body fresh)) <= 3)%nat /\
                  posts (trace (snd (chat key upstream req_body fresh))) =
                    calls (snd (chat key upstream req_body fresh)) /\
                  waits (trace (snd (chat key upstream req_body fresh))) =
                    firstn (calls (snd (chat key upstream req_body fresh)) - 1) [1000; 2000] /\
                  total (waits (trace (snd (chat key upstream req_body fresh)))) <= 3000).
  { intros ->. cbn. repeat split; lia. }
  destruct (get req_body "message") as [um|e] eqn:Hget.
  2:{ apply Hidle. unfold chat. rewrite Hget. reflexivity. }
  destruct (to_boolean um) eqn:Htruthy.
  2:{ apply Hidle.
      rewrite (chat_falsy_message key upstream req_body um fresh Hget Htruthy).
      reflexivity. }
  clear Hidle.
  assert (Hpos : 1 <= default_retries) by (unfold default_retries; lia).
  destruct (callGPTWithRetry_outcome key upstream um default_retries default_delay
              fresh Hpos) as [k [Hk [_ [Hworld _]]]].
  destruct (callGPTWithRetry key upstream um default_retries default_delay fresh)
    as [x w1] eqn:Hcall.
  cbn [fst snd fresh calls trace app Nat.add] in Hworld. subst w1.
  rewrite (chat_truthy_message key upstream req_body um fresh x _ Hget Htruthy Hcall).
  assert (Hwaits : forall tail,
             waits tail = [] ->
             waits (retry_rounds (build_request key um) k 1 default_retries default_delay
                      ++ tail) = firstn k [1000; 2000]).
  { intros tail Htail. rewrite waits_app, waits_retry_rounds, Htail, app_nil_r.
    destruct (at_most_three k Hk) as [-> | [-> | ->]]; reflexivity. }
  assert (Hposts : forall tail,
             posts tail = 1%nat ->
             posts (retry_rounds (build_request key um) k 1 default_retries default_delay
                      ++ tail) = S k).
  { intros tail Htail. rewrite posts_app, posts_retry_rounds, Htail. lia. }
  destruct (settle x); cbn [snd calls trace emit]; rewrite <- ?app_assoc;
    rewrite Hwaits by reflexivity; rewrite Hposts by reflexivity;
    replace (S k - 1)%nat with k by lia;
    (split; [pose proof (at_most_three k Hk); lia|]);
    (split; [reflexivity|]); (split; [reflexivity|]);
    destruct (at_most_three k Hk) as [-> | [-> | ->]]; cbn; lia.
Qed.

Example handler_cost_when_limited_throughout :
  calls (snd (chat [] (always too_many_requests) (VObj [(lit "message", hello)]) fresh))
    = 3%nat /\
  waits (trace (snd (chat [] (always too_many_requests) (VObj [(lit "message", hello)])
                       fresh))) = [1000; 2000].
Proof. vm_compute. split; reflexivity. Qed.

Import Startup.

Lemma header_authorization key um :
  header "Authorization" (build_request key um) = Some (lit "Bearer " ++ key).
Proof. reflexivity. Qed.

(** X14: the check of lines 12-15 ends the process there, with code 1,
    exactly when [OPENAI_API_KEY] is unset or empty, and lets it go on
    exactly when the key is a non-empty string; [PORT], the port later
    handed to [app.listen], is then the variable [PORT] if that is set
    and non-empty and 3000 otherwise.  In a process that has passed the
    check, every upstream call of every request carries the header
    [Authorization: Bearer <key>] with that non-empty key.  (Whether
    [app.listen] succeeds is not part of the statement.) *)
Theorem X14_never_without_credential (env : environment) :
  ((exists c, check_environment env = PassesCheck c) <->
   (exists k, getenv (lit "OPENAI_API_KEY") env = Some k /\ k <> [])) /\
  ((exists logged, check_environment env = ExitsAtCheck 1 logged) <->
   (getenv (lit "OPENAI_API_KEY") env = None \/
    getenv (lit "OPENAI_API_KEY") env = Some [])) /\
  (forall c, check_environment env = PassesCheck c ->
     getenv (lit "OPENAI_API_KEY") env = Some (OPENAI_API_KEY c) /\
     OPENAI_API_KEY c <> [] /\
     PORT c = match getenv (lit "PORT") env with
              | Some (u :: p) => VStr (u :: p)
              | _ => VNum 3000
              end /\
     forall upstream req_body,
       Forall (fun r => header "Authorization" r = Some (lit "Bearer " ++ OPENAI_API_KEY c))
         (posted_requests (trace (snd (chat (OPENAI_API_KEY c) upstream req_body fresh))))).
Proof.
  unfold check_environment, env_value.
  destruct (getenv (lit "OPENAI_API_KEY") env) as [[|u k]|] eqn:Hkey; cbn [to_boolean negb].
  - split; [ | split ].
    + split; [intros [c Hc]; discriminate | intros [k [Hk Hne]]; congruence].
    + split; [intros _; right; reflexivity | intros _; eexists; reflexivity].
    + intros c Hc. discriminate.
  - split; [ | split ].
    + split; [intros _; exists (u :: k); split; [reflexivity | discriminate]
             | intros _; eexists; reflexivity].
    + split; [intros [l Hl]; discriminate | intros [H | H]; discriminate].
    + intros c Hc. injection Hc as <-. cbn [OPENAI_API_KEY PORT].
      split; [reflexivity|]. split; [discriminate|]. split.
      * destruct (getenv (lit "PORT") env) as [[|v p]|]; reflexivity.
      * intros upstream req_body.
        destruct (get req_body "message") as [um|e] eqn:Hget.
        -- eapply Forall_impl;
             [ | exact (chat_posts_one_request (u :: k) upstream req_body um Hget) ].
           intros r ->. apply header_authorization.
        -- unfold chat. rewrite Hget. constructor.
  - split; [ | split ].
    + split; [intros [c Hc]; discriminate | intros [k [Hk Hne]]; congruence].
    + split; [intros _; left; reflexivity | intros _; eexists; reflexivity].
    + intros c Hc. discriminate.
Qed.

Example check_without_key :
  check_environment [(lit "PORT", lit "8080")] =
  ExitsAtCheck 1 (lit "Error: OPENAI_API_KEY is not defined in the environment.").
Proof. reflexivity. Qed.

Example check_with_key :
  check_environment [(lit "OPENAI_API_KEY", lit "sk-test"); (lit "PORT", [])] =
  PassesCheck (mkConfig (VNum 3000) (lit "sk-test")).
Proof. reflexivity. Qed.

Lemma trimStart_blank (s : jsstring) :
  forallb is_trimmable s = true -> trimStart s = [].
Proof.
  induction s as [|c s IH]; [reflexivity|].
  cbn [forallb trimStart]. intros H. apply andb_prop in H. destruct H as [-> Hs].
  apply IH. exact Hs.
Qed.

Lemma trim_blank (s : jsstring) : forallb is_trimmable s = true -> trim s = [].
Proof.
  intros H. unfold trim, trimEnd. rewrite (trimStart_blank s H). reflexivity.
Qed.

(** X15: a completion whose text is empty or consists of whitespace and
    line terminators only is a success with the empty string as its reply:
    [callGPTWithRetry] returns [""] after the one call, and the handler
    answers 200 with [{ reply: "" }], unlike an empty [message], which it
    refuses. *)
Theorem X15_blank_completion_is_an_empty_reply
    (key : jsstring) (upstream : nat -> request -> settled) (req_body um : value)
    (text : jsstring) :
  get req_body "message" = Normal um ->
  to_boolean um = true ->
  succeeds_with (upstream O (build_request key um)) text ->
  forallb is_trimmable text = true ->
  callGPTWithRetry key upstream um default_retries default_delay fresh =
    (Return [], mkWorld 1 [Post (build_request key um)]) /\
  chat key upstream req_body fresh =
    (Normal (mkHttp 200 (VObj [(lit "reply", VStr [])])),
     mkWorld 1 [Post (build_request key um)]).
Proof.
  intros Hget Htruthy [r [Hr Htext]] Hblank.
  assert (Hcall : callGPTWithRetry key upstream um default_retries default_delay fresh =
                  (Return [], mkWorld 1 [Post (build_request key um)])).
  { rewrite (callGPTWithRetry_rounds key upstream um default_retries O);
      [ | intros i Hi; lia | unfold default_retries; lia ].
    destruct (Z.to_nat default_retries - 0)%nat as [|n] eqn:Hn;
      [unfold default_retries in Hn; lia|].
    cbn [seq map].
    rewrite (attempt_loop_return key upstream um default_retries _ _ _ _ [])
      by (cbn [calls]; rewrite Hr; cbn [try_completion];
          rewrite (extract_reply_text r text Htext), (trim_blank text Hblank);
          reflexivity).
    reflexivity. }
  split; [exact Hcall|].
  rewrite (chat_truthy_message key upstream req_body um fresh _ _ Hget Htruthy Hcall).
  reflexivity.
Qed.

Lemma X15_witness :
  callGPTWithRetry [] (always (ok (lit "   "))) hello default_retries default_delay fresh =
    (Return [], mkWorld 1 [Post (build_request [] hello)]) /\
  chat [] (always (ok (lit "   "))) (VObj [(lit "message", hello)]) fresh =
    (Normal (mkHttp 200 (VObj [(lit "reply", VStr [])])),
     mkWorld 1 [Post (build_request [] hello)]).
Proof.
  apply (X15_blank_completion_is_an_empty_reply [] (always (ok (lit "   ")))
           (VObj [(lit "message", hello)]) hello (lit "   ")).
  - reflexivity.
  - reflexivity.
  - eexists. split; reflexivity.
  - reflexivity.
Defined.
